(** * Tomeus: text fitting, overlay geometry, export and response validation

    A shallow embedding of the algorithmic parts of the Tomeus front end
    (App.tsx, TranslationDisplay.tsx, services/geminiService.ts) and the
    properties its specification states about them.

    Modelling conventions.
    - A JavaScript [number] is an exact rational ([Q]); values that the code
      rounds with [Math.floor] are integers ([Z]).  NaN, the infinities and
      the rounding of fractions in IEEE doubles are outside the model.
    - The one place where the rounding of doubles decides whether the code
      returns is the counter [fontSize -= 1] of [drawTextAndFit].  It is
      modelled twice: [fitLoop] counts exactly, [fitLoopDouble] counts as
      the number type does ([Double.minusOne]); the two agree as long as
      the first candidate is at most 2^53, and beyond that the loop of the
      code need not end.
    - A JavaScript string is a [string] (a sequence of character codes).
    - The 2D drawing context is an explicit state record threaded through
      the drawing routines; every drawing call is appended to a log.
    - [measureText] is a parameter: any function from the current font size
      and a text to a width. *)

From Stdlib Require Import ZArith QArith Qround Lia Lqa List String Ascii Bool.
From Equations Require Import Equations.
Import ListNotations.

Local Open Scope Q_scope.
Local Open Scope string_scope.
Local Open Scope list_scope.

(** ** JavaScript string primitives used by the code *)

Module JS.

(** [x < y] on numbers, as a boolean. *)
Definition Qltb (x y : Q) : bool := negb (Qle_bool y x).

(** Truthiness of a string: [!s] holds exactly for the empty string. *)
Definition falsy (s : string) : bool := (s =? "")%string.

(** [s.split(c)] for a one-character separator [c]: the pieces between
    consecutive separators, empty pieces included; never the empty list. *)
Fixpoint split (sep : ascii) (s : string) : list string :=
  match s with
  | EmptyString => [EmptyString]
  | String c s' =>
      if Ascii.eqb c sep then EmptyString :: split sep s'
      else match split sep s' with
           | [] => [String c EmptyString]
           | piece :: pieces => String c piece :: pieces
           end
  end.

(** [s.lastIndexOf(c)]: index of the last occurrence of [c], or [-1]. *)
Fixpoint lastIndexOf (c : ascii) (s : string) : Z :=
  match s with
  | EmptyString => (-1)%Z
  | String a s' =>
      let r := lastIndexOf c s' in
      if (0 <=? r)%Z then (r + 1)%Z
      else if Ascii.eqb a c then 0%Z else (-1)%Z
  end.

(** [s.substring(start, end)]: both indices are clamped to
    [0 .. s.length] and swapped when [start > end]. *)
Definition substring (s : string) (start stop : Z) : string :=
  let len := Z.of_nat (String.length s) in
  let clamp i := Z.max 0 (Z.min i len) in
  let a := Z.min (clamp start) (clamp stop) in
  let b := Z.max (clamp start) (clamp stop) in
  String.substring (Z.to_nat a) (Z.to_nat (b - a)) s.

(** [s.replace(/\\n/g, '\n')]: every backslash followed by the letter n
    becomes one line feed, scanning left to right. *)
Fixpoint unescapeNewlines (s : string) : string :=
  match s with
  | EmptyString => EmptyString
  | String c s' =>
      match s' with
      | String d s'' =>
          if (Ascii.eqb c "\" && Ascii.eqb d "n")%bool
          then String "010"%char (unescapeNewlines s'')
          else String c (unescapeNewlines s')
      | EmptyString => String c EmptyString
      end
  end.

End JS.

(** ** The drawing context *)

Record Rect := mkRect { rx : Q; ry : Q; rw : Q; rh : Q }.

(** Drawing calls, each with the part of the context state it is drawn
    under.  [clip] is the list of rectangles whose intersection is the
    clipping region in force (empty list: no clipping). *)
Inductive DrawOp :=
| DrawImage (dx dy : Q)
| FillRect (style : string) (clip : list Rect) (x y w h : Q)
| FillText (fontPx : Z) (baseline style : string) (clip : list Rect)
           (text : string) (x y : Q).

(** The part of the state that [save] and [restore] handle. *)
Record GState := mkGState {
  g_font : Z;
  g_textBaseline : string;
  g_fillStyle : string;
  g_clip : list Rect
}.

Record Canvas := mkCanvas {
  font : Z;                  (* size in px of `${n}px sans-serif` *)
  textBaseline : string;
  fillStyle : string;
  clip : list Rect;
  path : list Rect;          (* current path, built by beginPath / rect *)
  saved : list GState;       (* stack of save() *)
  drawn : list DrawOp        (* log of drawing calls, oldest first *)
}.

(** A fresh 2D context: the defaults of the canvas API. *)
Definition freshCanvas : Canvas :=
  mkCanvas 10 "alphabetic" "#000000" [] [] [] [].

Module Ctx.

Definition setFont (ctx : Canvas) (px : Z) : Canvas :=
  mkCanvas px (textBaseline ctx) (fillStyle ctx) (clip ctx) (path ctx)
           (saved ctx) (drawn ctx).

Definition setTextBaseline (ctx : Canvas) (b : string) : Canvas :=
  mkCanvas (font ctx) b (fillStyle ctx) (clip ctx) (path ctx)
           (saved ctx) (drawn ctx).

Definition setFillStyle (ctx : Canvas) (s : string) : Canvas :=
  mkCanvas (font ctx) (textBaseline ctx) s (clip ctx) (path ctx)
           (saved ctx) (drawn ctx).

Definition save (ctx : Canvas) : Canvas :=
  mkCanvas (font ctx) (textBaseline ctx) (fillStyle ctx) (clip ctx)
           (path ctx)
           (mkGState (font ctx) (textBaseline ctx) (fillStyle ctx)
                     (clip ctx) :: saved ctx)
           (drawn ctx).

(** [restore] on an empty stack does nothing. *)
Definition restore (ctx : Canvas) : Canvas :=
  match saved ctx with
  | [] => ctx
  | g :: rest =>
      mkCanvas (g_font g) (g_textBaseline g) (g_fillStyle g) (g_clip g)
               (path ctx) rest (drawn ctx)
  end.

Definition beginPath (ctx : Canvas) : Canvas :=
  mkCanvas (font ctx) (textBaseline ctx) (fillStyle ctx) (clip ctx) []
           (saved ctx) (drawn ctx).

Definition rect (ctx : Canvas) (x y w h : Q) : Canvas :=
  mkCanvas (font ctx) (textBaseline ctx) (fillStyle ctx) (clip ctx)
           (path ctx ++ [mkRect x y w h]) (saved ctx) (drawn ctx).

(** [clip()] intersects the clipping region with the current path. *)
Definition clipPath (ctx : Canvas) : Canvas :=
  mkCanvas (font ctx) (textBaseline ctx) (fillStyle ctx)
           (path ctx ++ clip ctx) (path ctx) (saved ctx) (drawn ctx).

Definition emit (ctx : Canvas) (op : DrawOp) : Canvas :=
  mkCanvas (font ctx) (textBaseline ctx) (fillStyle ctx) (clip ctx)
           (path ctx) (saved ctx) (drawn ctx ++ [op]).

Definition drawImage (ctx : Canvas) (dx dy : Q) : Canvas :=
  emit ctx (DrawImage dx dy).

Definition fillRect (ctx : Canvas) (x y w h : Q) : Canvas :=
  emit ctx (FillRect (fillStyle ctx) (clip ctx) x y w h).

Definition fillText (ctx : Canvas) (text : string) (x y : Q) : Canvas :=
  emit ctx (FillText (font ctx) (textBaseline ctx) (fillStyle ctx)
                     (clip ctx) text x y).

End Ctx.

(** ** App.tsx: the text fitting engine *)

Section TextFit.

(** [ctx.measureText(s).width] under the font size currently set. *)
Variable measureText : Z -> string -> Q.

(** One iteration of the loop of [getWrappedLines] over [words]; the
    state is the pair of [lines] and [currentLine]. *)
Definition wrapWord (ctx : Canvas) (maxWidth : Q)
           (st : list string * string) (word : string)
  : list string * string :=
  let '(lines, currentLine) := st in
  let testLine :=
    if (currentLine =? "")%string then word
    else (currentLine ++ " " ++ word)%string in
  let width := measureText (font ctx) testLine in
  if (JS.Qltb width maxWidth || (currentLine =? "")%string)%bool
  then (lines, testLine)
  else (lines ++ [currentLine], word).

(** The loop over all [words] followed by the final
    [if (currentLine) lines.push(currentLine)]. *)
Definition wrapWords (ctx : Canvas) (maxWidth : Q) (words : list string)
  : list string :=
  let '(lines, currentLine) :=
    fold_left (wrapWord ctx maxWidth) words ([], "") in
  if JS.falsy currentLine then lines else lines ++ [currentLine].

Definition getWrappedLines (ctx : Canvas) (text : string) (maxWidth : Q)
  : list string :=
  if JS.falsy text then []
  else wrapWords ctx maxWidth (JS.split " " text).

(** The [for] loop that draws the wrapped lines, from line index [i] on.
    Both branches of [drawTextAndFit] run this same loop body. *)
Fixpoint fillLines (ctx : Canvas) (x y width lineHeight : Q)
         (i : nat) (lines : list string) : Canvas :=
  match lines with
  | [] => ctx
  | line :: rest =>
      let lineWidth := measureText (font ctx) line in
      let startX := x + (width - lineWidth) / 2 in
      let ctx' :=
        Ctx.fillText ctx line startX
                     (y + inject_Z (Z.of_nat i) * lineHeight) in
      fillLines ctx' x y width lineHeight (S i) rest
  end.

(** The test [textHeight <= height] of one loop iteration, after
    [ctx.font] has been set to the candidate. *)
Definition fits (ctx : Canvas) (text : string) (width height : Q) : bool :=
  let lineHeight := inject_Z (font ctx) * 1.2 in
  let lines := getWrappedLines ctx text (width - 4) in
  let textHeight := inject_Z (Z.of_nat (List.length lines)) * lineHeight in
  Qle_bool textHeight height.

(** The body of the [if (textHeight <= height)] branch. *)
Definition drawFitted (ctx : Canvas) (text : string) (x y width height : Q)
  : Canvas :=
  let lineHeight := inject_Z (font ctx) * 1.2 in
  let lines := getWrappedLines ctx text (width - 4) in
  let textHeight := inject_Z (Z.of_nat (List.length lines)) * lineHeight in
  let ctx1 := Ctx.setTextBaseline ctx "top" in
  let ctx2 := Ctx.setFillStyle ctx1 "white" in
  let startY := y + (height - textHeight) / 2 in (* computed, never read *)
  fillLines ctx2 x y width lineHeight 0 lines.

(** How the [while] loop is left: by the [return] inside it, or by its
    condition becoming false. *)
Inductive LoopExit :=
| Returned (ctx : Canvas)
| Exhausted (ctx : Canvas) (fontSize : Z).

(** [while (fontSize >= 8) { ... fontSize -= 1 }], with the candidate
    counted exactly.  The loop of the code counts in doubles: see
    [fitLoopDouble] below, which this loop equals whenever the first
    candidate is at most 2^53. *)
Equations? fitLoop (ctx : Canvas) (text : string) (x y width height : Q)
          (fontSize : Z) : LoopExit by wf (Z.to_nat (fontSize - 7)) lt :=
  fitLoop ctx text x y width height fontSize with Z_le_gt_dec 8 fontSize := {
    | right _ := Exhausted ctx fontSize
    | left _ with fits (Ctx.setFont ctx fontSize) text width height := {
        | true :=
            Returned (drawFitted (Ctx.setFont ctx fontSize)
                                 text x y width height)
        | false :=
            fitLoop (Ctx.setFont ctx fontSize) text x y width height
                    (fontSize - 1) } }.
Proof. lia. Qed.


(** The fallback after the loop: smallest size, clipped to the box. *)
Definition drawClipped (ctx : Canvas) (text : string) (x y width height : Q)
  : Canvas :=
  let finalFontSize := 8%Z in
  let ctx1 := Ctx.setFont ctx finalFontSize in
  let lineHeight := inject_Z finalFontSize * 1.2 in
  let lines := getWrappedLines ctx1 text (width - 4) in
  let ctx2 := Ctx.setTextBaseline ctx1 "top" in
  let ctx3 := Ctx.setFillStyle ctx2 "white" in
  let ctx4 := Ctx.save ctx3 in
  let ctx5 := Ctx.beginPath ctx4 in
  let ctx6 := Ctx.rect ctx5 x y width height in
  let ctx7 := Ctx.clipPath ctx6 in
  let ctx8 := fillLines ctx7 x y width lineHeight 0 lines in
  Ctx.restore ctx8.

Definition drawTextAndFit (ctx : Canvas) (text : string)
           (x y width height : Q) : Canvas :=
  let fontSize := Qfloor (height / 2) in
  match fitLoop ctx text x y width height fontSize with
  | Returned ctx' => ctx'
  | Exhausted ctx' fontSize' =>
      if (fontSize' <? 8)%Z then drawClipped ctx' text x y width height
      else ctx'
  end.

End TextFit.

(** ** The counter of the fit loop, as a double *)

Module Double.

(** The binary64 value nearest to the integer [z], ties to the even
    significand: what a JavaScript number holds after an arithmetic
    operation whose exact result is [z] (magnitudes below 2^1024).
    Integers of magnitude below 2^53 are kept; above, the 53 leading
    bits are kept and the rest is rounded off. *)
Definition roundInteger (z : Z) : Z :=
  let a := Z.abs z in
  if (a <? 2 ^ 53)%Z then z
  else
    let e := (Z.log2 a - 52)%Z in
    let q := Z.shiftr a e in
    let r := (a - Z.shiftl q e)%Z in
    let half := (2 ^ (e - 1))%Z in
    let q' :=
      if (r <? half)%Z then q
      else if (half <? r)%Z then (q + 1)%Z
      else if Z.even q then q else (q + 1)%Z in
    (Z.sgn z * Z.shiftl q' e)%Z.

(** [n - 1] on numbers, for an integer-valued number [n]. *)
Definition minusOne (n : Z) : Z := roundInteger (n - 1).

End Double.

Section TextFitDouble.

Variable measureText : Z -> string -> Q.



End TextFitDouble.

(** ** types.ts: the data model *)

Module Types.

Record BoundingBox := mkBoundingBox {
  x : Q;
  y : Q;
  width : Q;
  height : Q
}.

Record TranslatedBlock := mkTranslatedBlock {
  originalText : string;
  translatedText : string;
  boundingBox : BoundingBox
}.

End Types.

(** ** App.tsx: the export composer ([handleDownload]) *)

Section ExportComposer.

Variable measureText : Z -> string -> Q.

(** The four conversions at the head of the [forEach] callback, collected
    in one rectangle. *)
Definition toPixels (b : Types.BoundingBox) (canvasWidth canvasHeight : Q)
  : Rect :=
  let x := (Types.x b / 100) * canvasWidth in
  let y := (Types.y b / 100) * canvasHeight in
  let width := (Types.width b / 100) * canvasWidth in
  let height := (Types.height b / 100) * canvasHeight in
  mkRect x y width height.

(** The callback of [translationBlocks.forEach]. *)
Definition drawBlock (canvasWidth canvasHeight : Q)
           (ctx : Canvas) (block : Types.TranslatedBlock) : Canvas :=
  let r := toPixels (Types.boundingBox block) canvasWidth canvasHeight in
  if (JS.Qltb (rw r) 1 || JS.Qltb (rh r) 1)%bool then ctx
  else
    let ctx1 := Ctx.setFillStyle ctx "#111827" in
    let ctx2 := Ctx.fillRect ctx1 (rx r) (ry r) (rw r) (rh r) in
    drawTextAndFit measureText ctx2 (Types.translatedText block)
                   (rx r) (ry r) (rw r) (rh r).

(** What [image.onload] paints on the new canvas. *)
Definition paintExport (canvasWidth canvasHeight : Q)
           (blocks : list Types.TranslatedBlock) : Canvas :=
  let ctx := Ctx.drawImage freshCanvas 0 0 in
  fold_left (drawBlock canvasWidth canvasHeight) blocks ctx.

End ExportComposer.

(** [link.download] as computed from [file.name]. *)
Definition downloadName (name : string) : string :=
  let fileName := JS.substring name 0 (JS.lastIndexOf "." name) in
  (fileName ++ "-translated.png")%string.

(** What [handleDownload] hands to the browser: the name of the download
    and the canvas that [toDataURL] encodes. *)
Record Download := mkDownload {
  download : string;
  canvas : Canvas
}.

(** [handleDownload] for an image that loads, of natural size
    [naturalWidth] by [naturalHeight], with a 2D context available;
    [None] is the early [return] when there is nothing to export.  The
    blocks are taken at their declared types. *)
Definition handleDownload (measureText : Z -> string -> Q)
           (naturalWidth naturalHeight : Q)
           (fileDataURL : option string)
           (translationBlocks : option (list Types.TranslatedBlock))
           (fileName : option string) : option Download :=
  match fileDataURL, translationBlocks, fileName with
  | Some url, Some blocks, Some name =>
      if JS.falsy url then None
      else Some (mkDownload
                   (downloadName name)
                   (paintExport measureText naturalWidth naturalHeight blocks))
  | _, _, _ => None
  end.

(** ** TranslationDisplay.tsx: the hover popover *)

Module Overlay.

(** A CSS percentage such as [`${v}%`]. *)
Inductive CssPercent := Percent (v : Q).

Record PopoverStyle := mkPopoverStyle {
  position : string;
  left : CssPercent;
  top : CssPercent;
  transform : string;
  zIndex : Z
}.

Record PopoverState := mkPopoverState {
  block : Types.TranslatedBlock;
  style : PopoverStyle
}.

(** [handleMouseEnter]: the new value of the [hoveredBlock] state. *)
Definition handleMouseEnter (blk : Types.TranslatedBlock)
  : option PopoverState :=
  let boundingBox := Types.boundingBox blk in
  let popoverStyle :=
    mkPopoverStyle
      "absolute"
      (Percent (Types.x boundingBox))
      (Percent (Types.y boundingBox + Types.height boundingBox))
      "translateY(8px)"
      20 in
  let popoverStyle :=
    if JS.Qltb 70 (Types.y boundingBox + Types.height boundingBox)
    then mkPopoverStyle (position popoverStyle) (left popoverStyle)
                        (Percent (Types.y boundingBox))
                        "translateY(-100%) translateY(-8px)"
                        (zIndex popoverStyle)
    else popoverStyle in
  Some (mkPopoverState blk popoverStyle).

(** [handleMouseLeave]. *)
Definition handleMouseLeave : option PopoverState := None.

End Overlay.

(** ** services/geminiService.ts: validation of the parsed response *)

(** The values [JSON.parse] can return.  An object is the list of its
    properties. *)
#[local] Unset Elimination Schemes.
Inductive json :=
| JNull
| JBool (b : bool)
| JNum (n : Q)
| JStr (s : string)
| JArr (items : list json)
| JObj (props : list (string * json)).
#[local] Set Elimination Schemes.

(** A call either returns a value or throws an [Error] with a message. *)
Inductive outcome (A : Type) :=
| Return (value : A)
| Throw (message : string).
Arguments Return {A} value.
Arguments Throw {A} message.

Module Gemini.

(** [typeof v === 'object']: true of [null], arrays and objects. *)
Definition typeofObject (v : json) : bool :=
  match v with
  | JNull | JArr _ | JObj _ => true
  | _ => false
  end.

Definition isNull (v : json) : bool :=
  match v with JNull => true | _ => false end.

(** [v.key]; [None] stands for [undefined]. *)
Definition getProp (key : string) (v : json) : option json :=
  match v with
  | JObj props =>
      match find (fun kv => (fst kv =? key)%string) props with
      | Some kv => Some (snd kv)
      | None => None
      end
  | _ => None
  end.

(** [key in v], for the nine property names the code asks for.  None of
    them is an array index, [length] or a member of a built-in prototype,
    so an array never has them; on other non-objects the code does not
    evaluate [in] (the [typeof] and [null] tests come first in each
    conjunction). *)
Definition hasProp (key : string) (v : json) : bool :=
  match v with
  | JObj props => existsb (fun kv => (fst kv =? key)%string) props
  | _ => false
  end.

(** [Array.isArray(v)] and [typeof v === 'string'] of a property read. *)
Definition isArray (v : option json) : bool :=
  match v with Some (JArr _) => true | _ => false end.

Definition isString (v : option json) : bool :=
  match v with Some (JStr _) => true | _ => false end.

(** The value returned at run time: the blocks exactly as parsed. *)
Record TranslationResult := mkTranslationResult {
  translationBlocks : list json;
  formattedTranslation : string
}.

(** The predicate passed to [blocks.every]. *)
Definition validBlock (item : json) : bool :=
  typeofObject item
  && negb (isNull item)
  && hasProp "originalText" item
  && hasProp "translatedText" item
  && hasProp "boundingBox" item
  && match getProp "boundingBox" item with
     | Some bb =>
         typeofObject bb
         && negb (isNull bb)
         && hasProp "x" bb
         && hasProp "y" bb
         && hasProp "width" bb
         && hasProp "height" bb
     | None => false
     end.

Definition structureError : string :=
  "API did not return the expected object structure with 'translationBlocks' and 'formattedTranslation'.".

Definition blocksError : string :=
  "The translated data within 'translationBlocks' is malformed.".

(** The body of the [try] block from [JSON.parse] on. *)
Definition checkResponse (parsedJson : json) : outcome TranslationResult :=
  if negb (typeofObject parsedJson)
     || isNull parsedJson
     || negb (hasProp "translationBlocks" parsedJson)
     || negb (isArray (getProp "translationBlocks" parsedJson))
     || negb (hasProp "formattedTranslation" parsedJson)
     || negb (isString (getProp "formattedTranslation" parsedJson))
  then Throw structureError
  else
    match getProp "translationBlocks" parsedJson,
          getProp "formattedTranslation" parsedJson with
    | Some (JArr blocks), Some (JStr formatted) =>
        let isValid := forallb validBlock blocks in
        if negb isValid then Throw blocksError
        else
          let correctedFormattedTranslation :=
            JS.unescapeNewlines formatted in
          Return (mkTranslationResult blocks correctedFormattedTranslation)
    | _, _ => Throw structureError
    end.

(** [translateImageContent] once the model has answered with
    [parsedJson]: the [catch] clause rethrows with a prefixed message.
    What the [try] block does before the response is parsed is in
    [translateImageContentCall] below, which is this function whenever
    the text of the response parses. *)
Definition translateImageContent (parsedJson : json)
  : outcome TranslationResult :=
  match checkResponse parsedJson with
  | Return r => Return r
  | Throw message =>
      Throw ("Failed to get translation from AI: " ++ message)%string
  end.

End Gemini.

(** ** services/geminiService.ts: the whole [try] block

    [Gemini.translateImageContent] above starts where the response has
    been parsed.  Before that, still inside the [try], the request can
    reject, the response can come without a text, and [JSON.parse] can
    throw; the [catch] clause prefixes the message of an [Error] and
    answers anything else with a fixed message. *)

(** What a rejected request throws: an [Error] with its message, or a
    value that is no [Error]. *)
Inductive Thrown :=
| ThrownError (message : string)
| ThrownOther.

(** The end of [await ai.models.generateContent(...)]: it rejects, or it
    resolves with a response whose [text] is a string or [undefined]. *)
Inductive Answer :=
| Rejects (e : Thrown)
| Resolves (text : option string).

Definition unknownError : string :=
  "An unknown error occurred while communicating with the AI.".

Section GeminiCall.

(** [JSON.parse]: the parsed value, or the message of its [SyntaxError]. *)
Variable jsonParse : string -> outcome json.

(** [String.prototype.trim]. *)
Variable trim : string -> string.

(** The message of the [TypeError] for reading [trim] of [undefined]. *)
Variable undefinedText : string.

(** [translateImageContent] from the answer of the request on. *)
Definition translateImageContentCall (answer : Answer)
  : outcome Gemini.TranslationResult :=
  let tried : Thrown + Gemini.TranslationResult :=
    match answer with
    | Rejects e => inl e
    | Resolves None => inl (ThrownError undefinedText)
    | Resolves (Some text) =>
        let jsonText := trim text in
        match jsonParse jsonText with
        | Throw message => inl (ThrownError message)
        | Return parsedJson =>
            match Gemini.checkResponse parsedJson with
            | Return r => inr r
            | Throw message => inl (ThrownError message)
            end
        end
    end in
  match tried with
  | inr r => Return r
  | inl (ThrownError message) =>
      Throw ("Failed to get translation from AI: " ++ message)%string
  | inl ThrownOther => Throw unknownError
  end.

End GeminiCall.

(** ** App.tsx: the translate handler *)

Module App.

Record File := mkFile { name : string; type : string }.

Record State := mkState {
  file : option File;
  fileDataURL : option string;
  translationResult : option Gemini.TranslationResult;
  isLoading : bool;
  error : option string
}.

(** [handleTranslate], with [parsedJson] the answer the model gives to
    the request issued by this call. *)
Definition handleTranslate (st : State) (parsedJson : json) : State :=
  match file st, fileDataURL st with
  | Some f, Some url =>
      if JS.falsy url
      then mkState (file st) (fileDataURL st) (translationResult st)
                   (isLoading st) (Some "Please select a file first.")
      else
        (* setIsLoading(true); setError(null); setTranslationResult(null) *)
        let st1 := mkState (file st) (fileDataURL st) None true None in
        match Gemini.translateImageContent parsedJson with
        | Return result =>
            mkState (file st1) (fileDataURL st1) (Some result) false
                    (error st1)
        | Throw message =>
            mkState (file st1) (fileDataURL st1) (translationResult st1)
                    false (Some message)
        end
  | _, _ =>
      mkState (file st) (fileDataURL st) (translationResult st)
              (isLoading st) (Some "Please select a file first.")
  end.

End App.

(** ** The response contract, in words

    The shapes a response must have, written from the specification and
    not from the code.  [present key v]: the value [v] is an object with a
    property [key]. *)

Module Contract.

Definition present (key : string) (v : json) : Prop :=
  Gemini.getProp key v <> None.

Definition numeric (key : string) (v : json) : Prop :=
  exists n, Gemini.getProp key v = Some (JNum n).

(** A bounding box with the four fields present, whatever their type. *)
Definition boxPresent (bb : json) : Prop :=
  present "x" bb /\ present "y" bb
  /\ present "width" bb /\ present "height" bb.

(** A bounding box with the four fields present and numbers. *)
Definition boxNumeric (bb : json) : Prop :=
  numeric "x" bb /\ numeric "y" bb
  /\ numeric "width" bb /\ numeric "height" bb.

Definition blockWith (box : json -> Prop) (item : json) : Prop :=
  present "originalText" item
  /\ present "translatedText" item
  /\ exists bb, Gemini.getProp "boundingBox" item = Some bb /\ box bb.

(** An object with [translationBlocks] an array, [formattedTranslation]
    a string, and every block shaped as [box] asks. *)
Definition responseWith (box : json -> Prop) (v : json) : Prop :=
  exists blocks formatted,
    Gemini.getProp "translationBlocks" v = Some (JArr blocks)
    /\ Gemini.getProp "formattedTranslation" v = Some (JStr formatted)
    /\ Forall (blockWith box) blocks.

End Contract.

(** ** The wrap as the specification words it

    A second definition of the wrap, written from the specification text
    and not from the code: start with an empty current line; append each
    word in input order when the extended line measures strictly under the
    max width or the current line is empty; otherwise commit the current
    line and start a new one with just that word; commit a non-empty
    trailing line. *)

Section GreedySpec.

Variable measure : string -> Q.
Variable maxWidth : Q.

(** Appending a word, space-separated, to a line. *)
Definition extend (line word : string) : string :=
  if (line =? "")%string then word else (line ++ " " ++ word)%string.

Definition accepts (line word : string) : bool :=
  (JS.Qltb (measure (extend line word)) maxWidth || (line =? "")%string)%bool.

Fixpoint greedy (line : string) (words : list string) : list string :=
  match words with
  | [] => if (line =? "")%string then [] else [line]
  | word :: rest =>
      if accepts line word then greedy (extend line word) rest
      else line :: greedy word rest
  end.

Definition greedyWrap (words : list string) : list string := greedy "" words.

(** The same walk, keeping the words of every line instead of gluing
    them: [group] holds the words of the current line. *)
Fixpoint greedyGroups (line : string) (group words : list string)
  : list (list string) :=
  match words with
  | [] => [group]
  | word :: rest =>
      if accepts line word
      then greedyGroups (extend line word) (group ++ [word]) rest
      else group :: greedyGroups word [word] rest
  end.

End GreedySpec.

(** The line made of the words of one group. *)
Definition glue (group : list string) : string := fold_left extend group "".

Definition nonEmpty (s : string) : bool := negb (s =? "")%string.

(** ** The layout, as a function of the inputs alone

    What the drawing routines add to the log, written without the
    context: used to state what [drawTextAndFit] draws. *)

Section Layout.

Variable measureText : Z -> string -> Q.

(** The lines the text wraps to when the font size is [fontPx]. *)
Definition linesAt (text : string) (width : Q) (fontPx : Z) : list string :=
  getWrappedLines measureText (Ctx.setFont freshCanvas fontPx) text
                  (width - 4).

(** The candidate [fontPx] passes the height test. *)
Definition fitsAt (text : string) (width height : Q) (fontPx : Z) : bool :=
  Qle_bool (inject_Z (Z.of_nat (List.length (linesAt text width fontPx)))
            * (inject_Z fontPx * 1.2))
           height.

(** One [fillText] per line, line [i] first. *)
Fixpoint lineOps (fontPx : Z) (baseline fill : string) (clipped : list Rect)
         (x y width lineHeight : Q) (i : nat) (lines : list string)
  : list DrawOp :=
  match lines with
  | [] => []
  | line :: rest =>
      FillText fontPx baseline fill clipped line
               (x + (width - measureText fontPx line) / 2)
               (y + inject_Z (Z.of_nat i) * lineHeight)
      :: lineOps fontPx baseline fill clipped x y width lineHeight (S i) rest
  end.

(** The context after the text was drawn at an accepted size. *)
Definition fittedAt (ctx : Canvas) (text : string) (x y width : Q)
           (fontPx : Z) : Canvas :=
  mkCanvas fontPx "top" "white" (clip ctx) (path ctx) (saved ctx)
           (drawn ctx
            ++ lineOps fontPx "top" "white" (clip ctx) x y width
                       (inject_Z fontPx * 1.2) 0 (linesAt text width fontPx)).

(** The context after the fallback. *)
Definition clippedAt8 (ctx : Canvas) (text : string) (x y width height : Q)
  : Canvas :=
  mkCanvas 8 "top" "white" (clip ctx) [mkRect x y width height] (saved ctx)
           (drawn ctx
            ++ lineOps 8 "top" "white" (mkRect x y width height :: clip ctx)
                       x y width (inject_Z 8 * 1.2) 0 (linesAt text width 8)).

(** The font size [drawTextAndFit] leaves set, under which it drew. *)
Definition chosenFontSize (ctx : Canvas) (text : string)
           (x y width height : Q) : Z :=
  font (drawTextAndFit measureText ctx text x y width height).

End Layout.

(** A [fillText] at size [fontPx] whose clipping region lies inside
    [region]. *)
Definition textClippedTo (fontPx : Z) (region : Rect) (op : DrawOp) : Prop :=
  match op with
  | FillText f _ _ c _ _ _ => f = fontPx /\ In region c
  | _ => False
  end.

(** ** The export, block by block *)

Section ExportLayout.

Variable measureText : Z -> string -> Q.

(** The test [width < 1 || height < 1] of the export. *)
Definition degenerate (r : Rect) : bool :=
  (JS.Qltb (rw r) 1 || JS.Qltb (rh r) 1)%bool.

(** What fitting a text draws on a context that has drawn nothing and
    has no clipping region. *)
Definition fitOps (text : string) (x y width height : Q) : list DrawOp :=
  drawn (drawTextAndFit measureText freshCanvas text x y width height).

(** What one block adds to the export: nothing when its pixel box is
    degenerate, else the background and the fitted text. *)
Definition blockOps (canvasWidth canvasHeight : Q) (b : Types.TranslatedBlock)
  : list DrawOp :=
  let r := toPixels (Types.boundingBox b) canvasWidth canvasHeight in
  if degenerate r then []
  else FillRect "#111827" [] (rx r) (ry r) (rw r) (rh r)
       :: fitOps (Types.translatedText b) (rx r) (ry r) (rw r) (rh r).

End ExportLayout.

(** ** Auxiliary notions used in the statements *)

(** A text measure used in examples: every character is one unit wide,
    whatever the font size. *)
Definition unitWidth (fontPx : Z) (s : string) : Q :=
  inject_Z (Z.of_nat (String.length s)).

(** A string without any space is a single piece. *)
Definition spaceFree (s : string) : Prop :=
  ~ In " "%char (list_ascii_of_string s).

(** A state in which [handleTranslate] issues the request. *)
Definition readyToTranslate (st : App.State) : Prop :=
  exists f url,
    App.file st = Some f /\ App.fileDataURL st = Some url /\ url <> "".

(** ** Shapes of drawing calls, used in the statements *)

Definition isFillText (op : DrawOp) : bool :=
  match op with FillText _ _ _ _ _ _ _ => true | _ => false end.


(** A [fillText] under the clipping region [clipped] whose line, one line
    height tall from its top, lies between [y] and [y + height]. *)
Definition lineInBox (clipped : list Rect) (y height : Q) (op : DrawOp)
  : Prop :=
  match op with
  | FillText f _ _ c _ _ sy =>
      c = clipped /\ y <= sy /\ sy + inject_Z f * 1.2 <= y + height
  | _ => False
  end.

(** A [fillText] whose text, as measured at its font size, has its middle
    at the middle of the span from [x] to [x + width]. *)
Definition lineCentred (measureText : Z -> string -> Q) (x width : Q)
           (op : DrawOp) : Prop :=
  match op with
  | FillText f _ _ _ t sx _ => sx + measureText f t / 2 == x + width / 2
  | _ => False
  end.

(** The look of the calls an export makes: the image at the origin, dark
    unclipped backgrounds at least one pixel wide and high, and white
    top-aligned text of size 8 or more, unclipped or clipped to one such
    rectangle. *)
Definition exportStyled (op : DrawOp) : Prop :=
  match op with
  | DrawImage dx dy => dx = 0 /\ dy = 0
  | FillRect style c _ _ w h =>
      style = "#111827" /\ c = [] /\ 1 <= w /\ 1 <= h
  | FillText f baseline style c _ _ _ =>
      (8 <= f)%Z /\ baseline = "top" /\ style = "white"
      /\ (c = [] \/ exists r, c = [r] /\ 1 <= rw r /\ 1 <= rh r)
  end.

(** ** components/FileUpload.tsx: taking a file *)

Module FileUpload.

Record State := mkState {
  isDragging : bool;
  fileName : option string
}.

(** What a handler does besides updating the state of the component:
    the file it passes to [onFileSelect], and the message it alerts. *)
Record Effects := mkEffects {
  selected : option App.File;
  alerted : option string
}.

(** [s.startsWith(p)]. *)
Definition startsWith (s p : string) : bool := String.prefix p s.

Definition invalidFile : string :=
  "Please upload a valid image (PNG, JPG, etc.) or PDF file.".

(** [handleFile]; [None] is a [null] file. *)
Definition handleFile (st : State) (file : option App.File)
  : State * Effects :=
  match file with
  | Some f =>
      if (startsWith (App.type f) "image/"
          || (App.type f =? "application/pdf")%string)%bool
      then (mkState (isDragging st) (Some (App.name f)),
            mkEffects (Some f) None)
      else (st, mkEffects None (Some invalidFile))
  | None => (st, mkEffects None (Some invalidFile))
  end.

Definition onDragEnter (st : State) : State := mkState true (fileName st).

Definition onDragLeave (st : State) : State := mkState false (fileName st).

(** [onDrop], with the list of dropped files. *)
Definition onDrop (st : State) (files : list App.File) : State * Effects :=
  let st1 := mkState false (fileName st) in
  match files with
  | f :: _ => handleFile st1 (Some f)
  | [] => (st1, mkEffects None None)
  end.

(** [onFileChange], with the list of chosen files. *)
Definition onFileChange (st : State) (files : list App.File)
  : State * Effects :=
  match files with
  | f :: _ => handleFile st (Some f)
  | [] => (st, mkEffects None None)
  end.

End FileUpload.

(** ** App.tsx: selecting a file *)



(** ** Further notions used in the statements *)

(** A backslash directly followed by the letter n occurs in the string. *)
Fixpoint hasEscapedNewline (s : string) : bool :=
  match s with
  | EmptyString => false
  | String c s' =>
      match s' with
      | String d _ =>
          (Ascii.eqb c "\" && Ascii.eqb d "n") || hasEscapedNewline s'
      | EmptyString => false
      end
  end.

(** An object with [translationBlocks] an array and
    [formattedTranslation] a string. *)
Definition topLevelShape (v : json) : Prop :=
  exists blocks formatted,
    Gemini.getProp "translationBlocks" v = Some (JArr blocks)
    /\ Gemini.getProp "formattedTranslation" v = Some (JStr formatted).

(** The prefix the [catch] clause puts before a message. *)
Definition failedPrefix : string := "Failed to get translation from AI: ".

(** * Properties *)

(** ** The definitions on small inputs *)

Example split_pieces : JS.split " " "a  b c" = ["a"; ""; "b"; "c"].
Proof. reflexivity. Qed.

Example lastIndexOf_found : JS.lastIndexOf "." "a.tar.gz" = 5%Z.
Proof. reflexivity. Qed.

Example substring_clamped : JS.substring "photo.jpg" 0 5 = "photo".
Proof. reflexivity. Qed.

Example unescapeNewlines_pairs :
  JS.unescapeNewlines "a\nb\\n" =
  String "a" (String "010" (String "b" (String "\" (String "010" "")))).
Proof. reflexivity. Qed.

Example getWrappedLines_greedy :
  getWrappedLines unitWidth freshCanvas "aa bb cc d" 6 = ["aa bb"; "cc d"].
Proof. reflexivity. Qed.

Example downloadName_photo : downloadName "photo.jpg" = "photo-translated.png".
Proof. reflexivity. Qed.

(** ** Strings *)

Lemma append_assoc (a b c : string) :
  ((a ++ b) ++ c = a ++ (b ++ c))%string.
Proof. induction a as [|ch a IH]; simpl; [reflexivity | now rewrite IH]. Qed.

Lemma split_not_nil sep s : JS.split sep s <> [].
Proof.
  destruct s as [|c s]; simpl; [discriminate|].
  destruct (Ascii.eqb c sep); [discriminate|].
  destruct (JS.split sep s); discriminate.
Qed.

Lemma concat_cons2 sep a b l :
  String.concat sep (a :: b :: l) =
  (a ++ sep ++ String.concat sep (b :: l))%string.
Proof. reflexivity. Qed.

(** Joining the pieces of [split] with the separator gives the string back. *)
Lemma concat_split s : String.concat " " (JS.split " " s) = s.
Proof.
  induction s as [|c s IH]; [reflexivity|].
  simpl JS.split.
  destruct (Ascii.eqb_spec c " ") as [->|Hc].
  - pose proof (split_not_nil " "%char s) as Hn.
    destruct (JS.split " " s) as [|p ps] eqn:E; [contradiction|].
    rewrite concat_cons2, IH. reflexivity.
  - destruct (JS.split " " s) as [|p ps] eqn:E.
    + now destruct (split_not_nil " "%char s).
    + destruct ps as [|q qs]; simpl in *; now rewrite <- IH.
Qed.

Lemma extend_nonempty line word :
  line <> "" -> extend line word <> "".
Proof.
  intros H. unfold extend.
  destruct (String.eqb_spec line ""); [contradiction|].
  destruct line; [contradiction | discriminate].
Qed.

Lemma extend_empty word : extend "" word = word.
Proof. reflexivity. Qed.

Lemma extend_full line word :
  line <> "" -> extend line word = (line ++ " " ++ word)%string.
Proof.
  intros H. unfold extend. now destruct (String.eqb_spec line "").
Qed.

(** ** The word wrap *)

Section WrapProps.

Variable measureText : Z -> string -> Q.
Variable ctx : Canvas.
Variable maxWidth : Q.

Let m := measureText (font ctx).

Lemma wrapWord_accepts lines line word :
  wrapWord measureText ctx maxWidth (lines, line) word =
  if accepts m maxWidth line word then (lines, extend line word)
  else (lines ++ [line], word).
Proof. reflexivity. Qed.

(** The loop of the code, started in any state, commits what the
    specification's walk commits. *)
Lemma fold_wrapWord_greedy words : forall lines line,
  (let '(ls, cur) :=
     fold_left (wrapWord measureText ctx maxWidth) words (lines, line) in
   if JS.falsy cur then ls else ls ++ [cur])
  = lines ++ greedy m maxWidth line words.
Proof.
  induction words as [|w ws IH]; intros lines line.
  - simpl. unfold JS.falsy. destruct (line =? "")%string;
      [now rewrite app_nil_r | reflexivity].
  - cbn [fold_left greedy]. rewrite wrapWord_accepts.
    destruct (accepts m maxWidth line w).
    + apply IH.
    + rewrite IH, <- app_assoc. reflexivity.
Qed.

Lemma wrapWords_greedy words :
  wrapWords measureText ctx maxWidth words = greedyWrap m maxWidth words.
Proof.
  unfold wrapWords, greedyWrap.
  exact (fold_wrapWord_greedy words [] "").
Qed.

Lemma getWrappedLines_words text :
  getWrappedLines measureText ctx text maxWidth =
  wrapWords measureText ctx maxWidth (JS.split " " text).
Proof.
  unfold getWrappedLines, JS.falsy.
  destruct (String.eqb_spec text "") as [->|]; [|reflexivity].
  unfold wrapWords. cbn. now rewrite orb_true_r.
Qed.

Lemma accepts_empty word : accepts m maxWidth "" word = true.
Proof. unfold accepts. apply orb_true_r. Qed.

Lemma glue_snoc group word : glue (group ++ [word]) = extend (glue group) word.
Proof. unfold glue. now rewrite fold_left_app. Qed.

(** Every committed line is the glue of a run of consecutive words. *)
Lemma greedy_groups words : forall line group,
  line = glue group ->
  List.concat (greedyGroups m maxWidth line group words) = group ++ words
  /\ greedy m maxWidth line words =
     filter nonEmpty (map glue (greedyGroups m maxWidth line group words)).
Proof.
  induction words as [|w ws IH]; intros line group Hl; simpl.
  - split; [reflexivity|].
    rewrite <- Hl. unfold nonEmpty.
    now destruct (line =? "")%string.
  - destruct (accepts m maxWidth line w) eqn:Ha.
    + destruct (IH (extend line w) (group ++ [w])) as [Hc Hg].
      { now rewrite glue_snoc, Hl. }
      rewrite Hc, Hg, <- app_assoc. split; reflexivity.
    + destruct (IH w [w] eq_refl) as [Hc Hg].
      simpl. rewrite Hc, Hg, <- Hl. split; [reflexivity|].
      unfold accepts in Ha. apply orb_false_elim in Ha as [_ Ha].
      unfold nonEmpty at 2. now rewrite Ha.
Qed.

(** A non-empty current line is never lost. *)
Lemma greedy_not_nil words : forall line,
  line <> "" -> greedy m maxWidth line words <> [].
Proof.
  induction words as [|w ws IH]; intros line Hl; simpl.
  - destruct (String.eqb_spec line ""); [contradiction | discriminate].
  - destruct (accepts m maxWidth line w); [|discriminate].
    apply IH, extend_nonempty, Hl.
Qed.

Lemma concat_extend line word rest :
  line <> "" ->
  String.concat " " (extend line word :: rest) =
  String.concat " " (line :: word :: rest).
Proof.
  intros Hl. rewrite (extend_full _ _ Hl), concat_cons2.
  destruct rest as [|r rs]; [reflexivity|].
  rewrite !concat_cons2, !append_assoc. reflexivity.
Qed.

(** With no empty word, gluing the lines back gives the words back. *)
Lemma greedy_concat words : forall line,
  line <> "" -> Forall (fun w => w <> "") words ->
  String.concat " " (greedy m maxWidth line words) =
  String.concat " " (line :: words).
Proof.
  induction words as [|w ws IH]; intros line Hl Hw; simpl greedy.
  - now destruct (String.eqb_spec line "").
  - inversion Hw as [|? ? Hw1 Hw2]; subst.
    destruct (accepts m maxWidth line w).
    + rewrite IH; [| now apply extend_nonempty | assumption].
      now apply concat_extend.
    + pose proof (greedy_not_nil ws w Hw1) as Hn.
      destruct (greedy m maxWidth w ws) as [|g gs] eqn:E; [contradiction|].
      rewrite concat_cons2, <- E, IH by assumption. reflexivity.
Qed.

Section Oversize.

(** The measured width never shrinks when a line is extended. *)
Hypothesis measure_grows : forall line word,
  m line <= m (line ++ " " ++ word) /\ m word <= m (line ++ " " ++ word).

Variable word : string.
Hypothesis word_nonempty : word <> "".
Hypothesis word_oversize : maxWidth <= m word.

Lemma oversize_rejected line :
  line <> "" -> accepts m maxWidth line word = false.
Proof.
  intros Hl. unfold accepts. rewrite (extend_full _ _ Hl).
  destruct (String.eqb_spec line ""); [contradiction|].
  rewrite orb_false_r. unfold JS.Qltb.
  apply negb_false_iff, Qle_bool_iff.
  destruct (measure_grows line word) as [_ H]. lra.
Qed.

Lemma oversize_closed next : accepts m maxWidth word next = false.
Proof.
  unfold accepts. rewrite (extend_full _ _ word_nonempty).
  destruct (String.eqb_spec word ""); [contradiction|].
  rewrite orb_false_r. unfold JS.Qltb.
  apply negb_false_iff, Qle_bool_iff.
  destruct (measure_grows word next) as [H _]. lra.
Qed.

Lemma greedy_from_oversize after :
  greedy m maxWidth word after = word :: greedy m maxWidth "" after.
Proof.
  destruct after as [|w ws]; cbn [greedy].
  - now destruct (String.eqb_spec word "").
  - rewrite oversize_closed, accepts_empty. reflexivity.
Qed.

Lemma greedy_to_oversize after : forall before line,
  greedy m maxWidth line (before ++ word :: after) =
  greedy m maxWidth line before ++ greedy m maxWidth word after.
Proof.
  induction before as [|w ws IH]; intros line; cbn [greedy app].
  - destruct (String.eqb_spec line "") as [->|Hl].
    + now rewrite accepts_empty.
    + now rewrite oversize_rejected.
  - destruct (accepts m maxWidth line w); [apply IH|].
    rewrite IH. reflexivity.
Qed.

Lemma oversize_word_own_line before after :
  wrapWords measureText ctx maxWidth (before ++ word :: after) =
  wrapWords measureText ctx maxWidth before ++ [word]
  ++ wrapWords measureText ctx maxWidth after.
Proof.
  rewrite !wrapWords_greedy. unfold greedyWrap.
  rewrite greedy_to_oversize, greedy_from_oversize. reflexivity.
Qed.

End Oversize.

End WrapProps.


Lemma length_append (a b : string) :
  String.length (a ++ b) = (String.length a + String.length b)%nat.
Proof. induction a as [|c a IH]; simpl; [reflexivity | now rewrite IH]. Qed.

Lemma unitWidth_grows fontPx line word :
  unitWidth fontPx line <= unitWidth fontPx (line ++ " " ++ word)
  /\ unitWidth fontPx word <= unitWidth fontPx (line ++ " " ++ word).
Proof.
  unfold unitWidth. rewrite !length_append.
  split; rewrite <- Zle_Qle; lia.
Qed.


Lemma split_spaceFree_append w rest :
  spaceFree w ->
  JS.split " " (w ++ " " ++ rest) = w :: JS.split " " rest.
Proof.
  unfold spaceFree.
  induction w as [|c w IH]; intros Hw; [reflexivity|].
  simpl in *.
  destruct (Ascii.eqb_spec c " ") as [->|Hc]; [tauto|].
  rewrite IH by tauto. reflexivity.
Qed.

Lemma split_spaceFree w : spaceFree w -> JS.split " " w = [w].
Proof.
  unfold spaceFree.
  induction w as [|c w IH]; intros Hw; [reflexivity|].
  simpl in *.
  destruct (Ascii.eqb_spec c " ") as [->|Hc]; [tauto|].
  rewrite IH by tauto. reflexivity.
Qed.

(** Splitting a text built from space-free words gives the words back. *)
Lemma split_concat_words words :
  words <> [] -> Forall spaceFree words ->
  JS.split " " (String.concat " " words) = words.
Proof.
  induction words as [|w ws IH]; intros Hn Hw; [contradiction|].
  inversion Hw as [|? ? Hw1 Hw2]; subst.
  destruct ws as [|w' ws'].
  - now apply split_spaceFree.
  - rewrite concat_cons2, split_spaceFree_append by assumption.
    rewrite IH; [reflexivity | discriminate | assumption].
Qed.

(** C2, as amended.  [getWrappedLines] is the greedy wrap of the
    specification: on every text, max width and measuring function it
    returns what the walk described in words returns on the pieces of the
    text between spaces.  Its lines are the glued groups of a division of
    the words into consecutive runs, so no word is split across lines.
    When extending a line never makes it measure less than the line or
    the added word alone, a non-empty word that alone measures at least
    the max width is a line of its own, and the words before and after it
    wrap as they do without it. *)
Theorem getWrappedLines_greedy_wrap
        (measureText : Z -> string -> Q) (ctx : Canvas)
        (text : string) (maxWidth : Q) :
  let m := measureText (font ctx) in
  let words := JS.split " " text in
  let lines := getWrappedLines measureText ctx text maxWidth in
  lines = greedyWrap m maxWidth words
  /\ (exists groups : list (list string),
         List.concat groups = words
         /\ lines = filter nonEmpty (map glue groups))
  /\ ((forall line word,
          m line <= m (line ++ " " ++ word)%string
          /\ m word <= m (line ++ " " ++ word)%string) ->
      forall before word after,
        words = before ++ word :: after ->
        word <> "" ->
        maxWidth <= m word ->
        lines = wrapWords measureText ctx maxWidth before ++ [word]
                ++ wrapWords measureText ctx maxWidth after).
Proof.
  intros m words lines. subst lines.
  rewrite getWrappedLines_words. fold words.
  split; [apply wrapWords_greedy|]. split.
  - exists (greedyGroups m maxWidth "" [] words).
    destruct (greedy_groups measureText ctx maxWidth words "" [] eq_refl)
      as [Hc Hg].
    split; [exact Hc|].
    rewrite wrapWords_greedy. exact Hg.
  - intros Hgrow before word after -> Hne Hbig.
    now apply oversize_word_own_line.
Qed.

Lemma getWrappedLines_greedy_wrap_witness :
  getWrappedLines unitWidth freshCanvas "aa bbbbbbbb cc" 5
  = ["aa"; "bbbbbbbb"; "cc"].
Proof.
  destruct (getWrappedLines_greedy_wrap unitWidth freshCanvas
              "aa bbbbbbbb cc" 5) as (_ & _ & H).
  refine (H (unitWidth_grows _) ["aa"] "bbbbbbbb" ["cc"] eq_refl _ _).
  - discriminate.
  - vm_compute. discriminate.
Defined.

(** C2 as stated fails.  With a measure under which "ab" alone is 10 wide
    and every other string 0 wide, the word "ab" is at least as wide as
    the max width 5 and still shares its line with "c".  With one unit per
    character and max width 0, the empty word between the two spaces of
    "a  b" is as wide as the max width and gets no line at all. *)
Lemma getWrappedLines_oversize_counterexample :
  let abWide := fun (_ : Z) (s : string) =>
                  if (s =? "ab")%string then 10 else 0 in
  (JS.split " " "ab c" = ["ab"; "c"]
   /\ 5 <= abWide (font freshCanvas) "ab"
   /\ getWrappedLines abWide freshCanvas "ab c" 5 = ["ab c"]
   /\ ~ In "ab" (getWrappedLines abWide freshCanvas "ab c" 5))
  /\ (JS.split " " "a  b" = ["a"; ""; "b"]
      /\ 0 <= unitWidth (font freshCanvas) ""
      /\ getWrappedLines unitWidth freshCanvas "a  b" 0 = ["a"; "b"]
      /\ ~ In "" (getWrappedLines unitWidth freshCanvas "a  b" 0)).
Proof.
  cbv zeta. repeat split; try reflexivity;
    try (vm_compute; discriminate);
    intros H; vm_compute in H; intuition discriminate.
Qed.

(** C10.  For a non-empty text whose pieces between spaces are all
    non-empty (no leading, trailing or doubled space), joining the lines
    of [getWrappedLines] with single spaces gives the text back, for every
    max width and measuring function. *)
Theorem getWrappedLines_preserves_content
        (measureText : Z -> string -> Q) (ctx : Canvas)
        (maxWidth : Q) (text : string) :
  text <> "" ->
  Forall (fun w => w <> "") (JS.split " " text) ->
  String.concat " " (getWrappedLines measureText ctx text maxWidth) = text.
Proof.
  intros _ Hw.
  rewrite getWrappedLines_words, wrapWords_greedy. unfold greedyWrap.
  rewrite <- (concat_split text) at 2.
  destruct (JS.split " " text) as [|w ws]; [reflexivity|].
  inversion Hw as [|? ? Hw1 Hw2]; subst.
  cbn [greedy]. rewrite accepts_empty, extend_empty.
  now apply greedy_concat.
Qed.

Lemma getWrappedLines_preserves_content_witness :
  String.concat " " (getWrappedLines unitWidth freshCanvas "aa bb cc d" 6)
  = "aa bb cc d".
Proof.
  apply getWrappedLines_preserves_content.
  - discriminate.
  - repeat constructor; discriminate.
Defined.

(** The same, for a text given as its words. *)
Lemma getWrappedLines_words_roundtrip
      (measureText : Z -> string -> Q) (ctx : Canvas) (maxWidth : Q)
      (words : list string) :
  words <> [] ->
  Forall (fun w => w <> "" /\ spaceFree w) words ->
  String.concat " "
    (getWrappedLines measureText ctx (String.concat " " words) maxWidth)
  = String.concat " " words.
Proof.
  intros Hn Hw.
  assert (Hs : JS.split " " (String.concat " " words) = words).
  { apply split_concat_words; [assumption|].
    eapply Forall_impl; [|exact Hw]. now intros ? []. }
  rewrite getWrappedLines_words, wrapWords_greedy, Hs. unfold greedyWrap.
  destruct words as [|w ws]; [contradiction|].
  inversion Hw as [|? ? [Hw1 _] Hw2]; subst.
  cbn [greedy]. rewrite accepts_empty, extend_empty.
  apply greedy_concat; [assumption|].
  eapply Forall_impl; [|exact Hw2]. now intros ? [].
Qed.

(** ** The fit loop *)

Section FitProps.

Variable measureText : Z -> string -> Q.
Variables (text : string) (x y width height : Q).

Lemma getWrappedLines_font (c1 c2 : Canvas) (t : string) (maxWidth : Q) :
  font c1 = font c2 ->
  getWrappedLines measureText c1 t maxWidth =
  getWrappedLines measureText c2 t maxWidth.
Proof.
  intros H. rewrite !getWrappedLines_words, !wrapWords_greedy, H.
  reflexivity.
Qed.

Lemma getWrappedLines_linesAt (ctx : Canvas) :
  getWrappedLines measureText ctx text (width - 4) =
  linesAt measureText text width (font ctx).
Proof. now apply getWrappedLines_font. Qed.

Lemma fits_fitsAt (ctx : Canvas) :
  fits measureText ctx text width height =
  fitsAt measureText text width height (font ctx).
Proof. unfold fits, fitsAt. now rewrite getWrappedLines_linesAt. Qed.

(** The drawing loop adds one [fillText] per line to the log and leaves
    the rest of the context alone. *)
Lemma fillLines_spec lineHeight lines : forall ctx i,
  fillLines measureText ctx x y width lineHeight i lines =
  mkCanvas (font ctx) (textBaseline ctx) (fillStyle ctx) (clip ctx)
           (path ctx) (saved ctx)
           (drawn ctx
            ++ lineOps measureText (font ctx) (textBaseline ctx)
                       (fillStyle ctx) (clip ctx) x y width lineHeight
                       i lines).
Proof.
  induction lines as [|l ls IH]; intros ctx i; simpl.
  - rewrite app_nil_r. now destruct ctx.
  - rewrite IH. simpl. rewrite <- app_assoc. reflexivity.
Qed.

Lemma drawFitted_spec (ctx : Canvas) :
  drawFitted measureText ctx text x y width height =
  fittedAt measureText ctx text x y width (font ctx).
Proof.
  unfold drawFitted, fittedAt.
  rewrite fillLines_spec, getWrappedLines_linesAt. reflexivity.
Qed.

Lemma drawClipped_spec (ctx : Canvas) :
  drawClipped measureText ctx text x y width height =
  clippedAt8 measureText ctx text x y width height.
Proof.
  unfold drawClipped, clippedAt8.
  rewrite fillLines_spec. reflexivity.
Qed.

(** The loop, unfolded once. *)
Lemma fitLoop_once (ctx : Canvas) (fontSize : Z) :
  fitLoop measureText ctx text x y width height fontSize =
  if (8 <=? fontSize)%Z then
    if fits measureText (Ctx.setFont ctx fontSize) text width height
    then Returned (drawFitted measureText (Ctx.setFont ctx fontSize)
                              text x y width height)
    else fitLoop measureText (Ctx.setFont ctx fontSize) text x y width
                 height (fontSize - 1)
  else Exhausted ctx fontSize.
Proof.
  simp fitLoop.
  destruct (Z_le_gt_dec 8 fontSize) as [H|H]; simpl;
    destruct (Z.leb_spec 8 fontSize); try lia; [|reflexivity].
  destruct (fits measureText (Ctx.setFont ctx fontSize) text width height);
    simpl; simp fitLoop; reflexivity.
Qed.


(** What the loop computes: the largest candidate from [fontSize] down
    to 8 that passes the height test, if there is one. *)
Lemma fitLoop_spec (n : nat) : forall ctx fontSize,
  Z.to_nat (fontSize - 7) = n ->
  match fitLoop measureText ctx text x y width height fontSize with
  | Returned ctx' =>
      exists g, (8 <= g <= fontSize)%Z
        /\ fitsAt measureText text width height g = true
        /\ (forall g', (g < g' <= fontSize)%Z ->
                       fitsAt measureText text width height g' = false)
        /\ ctx' = fittedAt measureText ctx text x y width g
  | Exhausted ctx' fontSize' =>
      (fontSize' < 8)%Z
      /\ (forall g, (8 <= g <= fontSize)%Z ->
                    fitsAt measureText text width height g = false)
      /\ textBaseline ctx' = textBaseline ctx
      /\ fillStyle ctx' = fillStyle ctx
      /\ clip ctx' = clip ctx /\ path ctx' = path ctx
      /\ saved ctx' = saved ctx /\ drawn ctx' = drawn ctx
  end.
Proof.
  induction n as [|n IH]; intros ctx f Hn; rewrite fitLoop_once.
  - destruct (Z.leb_spec 8 f); [lia|].
    split; [assumption|]. split; [intros; lia|]. now repeat split.
  - destruct (Z.leb_spec 8 f); [|lia].
    rewrite fits_fitsAt, drawFitted_spec. cbn [font Ctx.setFont].
    destruct (fitsAt measureText text width height f) eqn:Hfit.
    + exists f. split; [lia|]. split; [assumption|].
      split; [intros; lia | reflexivity].
    + specialize (IH (Ctx.setFont ctx f) (f - 1)%Z ltac:(lia)).
      destruct (fitLoop measureText (Ctx.setFont ctx f) text x y width
                        height (f - 1)) as [c|c f'].
      * destruct IH as (g & Hg & Hfg & Hmax & ->).
        exists g. split; [lia|]. split; [assumption|].
        split; [|reflexivity].
        intros g' Hg'. destruct (Z.eq_dec g' f) as [->|]; [assumption|].
        apply Hmax. lia.
      * destruct IH as (Hf' & Hnone & Hrest).
        split; [assumption|]. split; [|exact Hrest].
        intros g Hg. destruct (Z.eq_dec g f) as [->|]; [assumption|].
        apply Hnone. lia.
Qed.

(** [drawTextAndFit] either draws at the largest candidate between
    [floor(height / 2)] and 8 that passes the height test, or, when no
    candidate passes, draws at size 8 clipped to the box. *)
Lemma drawTextAndFit_spec (ctx : Canvas) :
  let start := Qfloor (height / 2) in
  (exists g, (8 <= g <= start)%Z
     /\ fitsAt measureText text width height g = true
     /\ (forall g', (g < g' <= start)%Z ->
                    fitsAt measureText text width height g' = false)
     /\ drawTextAndFit measureText ctx text x y width height =
        fittedAt measureText ctx text x y width g)
  \/ ((forall g, (8 <= g <= start)%Z ->
                 fitsAt measureText text width height g = false)
      /\ drawTextAndFit measureText ctx text x y width height =
         clippedAt8 measureText ctx text x y width height).
Proof.
  intros start. unfold drawTextAndFit. fold start.
  pose proof (fitLoop_spec _ ctx start eq_refl) as H.
  destruct (fitLoop measureText ctx text x y width height start) as [c|c f'].
  - left. exact H.
  - right. destruct H as (Hf' & Hnone & Hb & Hs & Hc & Hp & Hsv & Hd).
    split; [exact Hnone|].
    destruct (Z.ltb_spec f' 8); [|lia].
    rewrite drawClipped_spec. unfold clippedAt8.
    now rewrite Hc, Hsv, Hd.
Qed.

End FitProps.

Lemma lineOps_clipped (measureText : Z -> string -> Q) fontPx baseline fill
      clipped region x y width lineHeight lines : forall i,
  In region clipped ->
  Forall (textClippedTo fontPx region)
         (lineOps measureText fontPx baseline fill clipped x y width
                  lineHeight i lines).
Proof.
  induction lines as [|l ls IH]; intros i Hin; simpl; constructor.
  - split; [reflexivity | assumption].
  - now apply IH.
Qed.

Lemma lineOps_length (measureText : Z -> string -> Q) fontPx baseline fill
      clipped x y width lineHeight lines : forall i,
  List.length (lineOps measureText fontPx baseline fill clipped x y width
                       lineHeight i lines) = List.length lines.
Proof.
  induction lines as [|l ls IH]; intros i; cbn [lineOps List.length];
    [reflexivity | now rewrite IH].
Qed.

(** Line [i] of a run of [lineOps] is drawn [i] line heights below [y]. *)
Lemma lineOps_nth (measureText : Z -> string -> Q) fontPx baseline fill
      clipped x y width lineHeight lines : forall start i line,
  nth_error lines i = Some line ->
  nth_error (lineOps measureText fontPx baseline fill clipped x y width
                     lineHeight start lines) i =
  Some (FillText fontPx baseline fill clipped line
                 (x + (width - measureText fontPx line) / 2)
                 (y + inject_Z (Z.of_nat (start + i)) * lineHeight)).
Proof.
  induction lines as [|l ls IH]; intros start i line H.
  - destruct i; discriminate.
  - destruct i as [|i]; cbn [lineOps nth_error] in *.
    + injection H as ->. now rewrite Nat.add_0_r.
    + rewrite (IH (S start) i line H).
      now replace (S start + i)%nat with (start + S i)%nat by lia.
Qed.

Lemma fitsAt_taller (measureText : Z -> string -> Q) text width h1 h2 g :
  h1 <= h2 ->
  fitsAt measureText text width h1 g = true ->
  fitsAt measureText text width h2 g = true.
Proof.
  unfold fitsAt. intros Hh H.
  apply Qle_bool_iff in H. apply Qle_bool_iff.
  eapply Qle_trans; eassumption.
Qed.

Lemma half_floor_le h1 h2 : h1 <= h2 -> (Qfloor (h1 / 2) <= Qfloor (h2 / 2))%Z.
Proof.
  intros H. apply Qfloor_resp_le. unfold Qdiv.
  apply Qmult_le_compat_r; [assumption | discriminate].
Qed.

(** Whatever the inputs, what [drawTextAndFit] adds to the log is one
    [fillText] per wrapped line, all at the chosen font size, and line [i]
    is [i] line heights below the top [y] of the box, in the fitted branch
    and in the fallback alike. *)
Lemma drawTextAndFit_draws_at_chosen_size
      (measureText : Z -> string -> Q) (ctx : Canvas) (text : string)
      (x y width height : Q) :
  let size := chosenFontSize measureText ctx text x y width height in
  exists lines clipped,
    drawn (drawTextAndFit measureText ctx text x y width height) =
    drawn ctx
    ++ lineOps measureText size "top" "white" clipped x y width
               (inject_Z size * 1.2) 0 lines.
Proof.
  unfold chosenFontSize.
  destruct (drawTextAndFit_spec measureText text x y width height ctx)
    as [(g & _ & _ & _ & ->) | (_ & ->)]; cbn [font fittedAt clippedAt8 drawn];
    eexists; eexists; reflexivity.
Qed.

Lemma drawTextAndFit_line_position
      (measureText : Z -> string -> Q) (ctx : Canvas) (text : string)
      (x y width height : Q) :
  let size := chosenFontSize measureText ctx text x y width height in
  let lineHeight := inject_Z size * 1.2 in
  exists lines clipped ops,
    drawn (drawTextAndFit measureText ctx text x y width height) =
    drawn ctx ++ ops
    /\ List.length ops = List.length lines
    /\ forall i line,
         nth_error lines i = Some line ->
         nth_error ops i =
         Some (FillText size "top" "white" clipped line
                        (x + (width - measureText size line) / 2)
                        (y + inject_Z (Z.of_nat i) * lineHeight)).
Proof.
  intros size lineHeight.
  destruct (drawTextAndFit_draws_at_chosen_size measureText ctx text
                                               x y width height)
    as (lines & clipped & H).
  exists lines, clipped. eexists. split; [exact H|]. split.
  - apply lineOps_length.
  - intros i line Hi. now apply (lineOps_nth _ _ _ _ _ _ _ _ _ _ 0%nat).
Qed.

(** C3.  For a fixed text, box width and measuring function, the font
    size chosen by [drawTextAndFit] (8 in the fallback) does not decrease
    when the box height grows. *)
Theorem chosenFontSize_monotone
        (measureText : Z -> string -> Q) (ctx1 ctx2 : Canvas) (text : string)
        (x1 y1 x2 y2 width h1 h2 : Q) :
  h1 <= h2 ->
  (chosenFontSize measureText ctx1 text x1 y1 width h1
   <= chosenFontSize measureText ctx2 text x2 y2 width h2)%Z.
Proof.
  intros Hh. unfold chosenFontSize.
  pose proof (half_floor_le _ _ Hh) as Hstart.
  destruct (drawTextAndFit_spec measureText text x1 y1 width h1 ctx1)
    as [(g1 & Hg1 & Hfit1 & _ & ->) | (_ & ->)];
  destruct (drawTextAndFit_spec measureText text x2 y2 width h2 ctx2)
    as [(g2 & Hg2 & Hfit2 & Hmax2 & ->) | (Hnone2 & ->)];
  cbn [font fittedAt clippedAt8]; try lia.
  - destruct (Z_le_gt_dec g1 g2) as [|Hgt]; [assumption|].
    pose proof (fitsAt_taller _ _ _ _ _ _ Hh Hfit1) as H.
    rewrite Hmax2 in H by lia. discriminate.
  - pose proof (fitsAt_taller _ _ _ _ _ _ Hh Hfit1) as H.
    rewrite Hnone2 in H by lia. discriminate.
Qed.

Lemma chosenFontSize_monotone_witness :
  (chosenFontSize unitWidth freshCanvas "hello world foo" 0 0 30 20
   <= chosenFontSize unitWidth freshCanvas "hello world foo" 0 0 30 60)%Z.
Proof.
  apply chosenFontSize_monotone. vm_compute. discriminate.
Defined.

(** The double counter on small cases and around 2^53. *)
Example minusOne_exact : Double.minusOne 9 = 8%Z.
Proof. reflexivity. Qed.

Example minusOne_at_2_53 :
  Double.minusOne (2 ^ 53) = (2 ^ 53 - 1)%Z
  /\ Double.minusOne (2 ^ 53 + 2) = (2 ^ 53)%Z
  /\ Double.minusOne (2 ^ 53 + 4) = (2 ^ 53 + 4)%Z
  /\ Double.minusOne (2 ^ 54) = (2 ^ 54)%Z.
Proof. repeat split; vm_compute; reflexivity. Qed.







(** C1 fails on the code.  A two-letter text in a 100 by 100 box at
    (10, 20) is accepted at size 50 with one line, 60 high.  The centred
    start would be 20 + (100 - 60) / 2 = 40; the line is drawn at the top
    of the box, 20. *)
Theorem drawTextAndFit_draws_from_top :
  let result := drawTextAndFit unitWidth freshCanvas "Hi" 10 20 100 100 in
  let lineHeight := inject_Z 50 * 1.2 in
  let textHeight := inject_Z 1 * lineHeight in
  let startY := 20 + (100 - textHeight) / 2 in
  font result = 50%Z
  /\ textHeight <= 100
  /\ startY == 40
  /\ exists sx sy,
       drawn result = [FillText 50 "top" "white" [] "Hi" sx sy]
       /\ sy == 20
       /\ ~ sy == startY.
Proof.
  cbv zeta. split; [reflexivity|]. split; [vm_compute; discriminate|].
  split; [reflexivity|].
  eexists. eexists. split; [vm_compute; reflexivity|].
  split; [reflexivity | vm_compute; discriminate].
Qed.

(** ** Percentages to pixels *)

Lemma percent_of_reference p ref :
  0 <= p -> p <= 100 -> 0 < ref ->
  0 <= (p / 100) * ref /\ (p / 100) * ref <= ref.
Proof.
  intros H0 H1 Hr.
  assert (Hz : 0 <= p / 100 /\ p / 100 <= 1).
  { split.
    - apply Qle_shift_div_l; [reflexivity | lra].
    - apply Qle_shift_div_r; [reflexivity | lra]. }
  destruct Hz as [Hz0 Hz1]. split.
  - apply Qmult_le_0_compat; lra.
  - rewrite <- (Qmult_1_l ref) at 2.
    apply Qmult_le_compat_r; lra.
Qed.

(** C5, as amended.  The export converts a percentage box by
    [(v / 100) * reference].  For a box with non-negative [x], [y],
    [width] and [height], [x + width <= 100] and [y + height <= 100], and
    positive reference dimensions, each of the four pixel values lies
    between 0 and its reference dimension.  The box (10, 10, 30, 10)
    against 1000 by 500 becomes the rectangle at (100, 50) of size
    (300, 50). *)
Theorem toPixels_within_reference
        (b : Types.BoundingBox) (refWidth refHeight : Q) :
  0 <= Types.x b -> 0 <= Types.y b ->
  0 <= Types.width b -> 0 <= Types.height b ->
  Types.x b + Types.width b <= 100 -> Types.y b + Types.height b <= 100 ->
  0 < refWidth -> 0 < refHeight ->
  let r := toPixels b refWidth refHeight in
  (rx r = (Types.x b / 100) * refWidth
   /\ ry r = (Types.y b / 100) * refHeight
   /\ rw r = (Types.width b / 100) * refWidth
   /\ rh r = (Types.height b / 100) * refHeight)
  /\ (0 <= rx r <= refWidth /\ 0 <= ry r <= refHeight
      /\ 0 <= rw r <= refWidth /\ 0 <= rh r <= refHeight)
  /\ (let s := toPixels (Types.mkBoundingBox 10 10 30 10) 1000 500 in
      rx s == 100 /\ ry s == 50 /\ rw s == 300 /\ rh s == 50).
Proof.
  intros Hx Hy Hw Hh Hxw Hyh HW HH r.
  split; [now repeat split|]. split; [|now repeat split].
  subst r. cbn [toPixels rx ry rw rh].
  repeat split; apply percent_of_reference; lra.
Qed.

Lemma toPixels_within_reference_witness :
  let r := toPixels (Types.mkBoundingBox 20 30 50 60) 640 480 in
  0 <= rx r <= 640 /\ 0 <= ry r <= 480
  /\ 0 <= rw r <= 640 /\ 0 <= rh r <= 480.
Proof.
  refine (proj1 (proj2 (toPixels_within_reference
                          (Types.mkBoundingBox 20 30 50 60) 640 480
                          _ _ _ _ _ _ _ _)));
    vm_compute; congruence.
Defined.

(** C5 as stated fails: nothing in its hypotheses keeps [width] from being
    negative.  The box (150, 0, -100, 10) has [0 <= x], [0 <= y],
    [x + width = 50 <= 100] and [y + height = 10 <= 100]; against 1000 by
    500 its pixel x is 1500, beyond the reference width, and its pixel
    width is -1000. *)
Lemma toPixels_negative_width_counterexample :
  let b := Types.mkBoundingBox 150 0 (-100) 10 in
  let r := toPixels b 1000 500 in
  (0 <= Types.x b /\ 0 <= Types.y b
   /\ Types.x b + Types.width b <= 100 /\ Types.y b + Types.height b <= 100
   /\ 0 < 1000 /\ 0 < 500)
  /\ rx r == 1500 /\ rw r == -1000
  /\ ~ (rx r <= 1000) /\ ~ (0 <= rw r).
Proof.
  cbv zeta. repeat split; try (vm_compute; congruence);
    intros H; vm_compute in H; congruence.
Qed.

(** ** The popover *)

(** C8.  The popover of a hovered block is anchored at the block's left
    edge.  When [y + height <= 70] it sits below the block: [top] is
    [y + height] percent and the transform moves it 8 px down.  When
    [y + height > 70] it sits above: [top] is [y] percent and the
    transform moves it up by its own height and 8 px.  So a block with
    [y + height = 85] gets its popover above and one with
    [y + height = 40] below. *)
Theorem handleMouseEnter_placement (blk : Types.TranslatedBlock) :
  let b := Types.boundingBox blk in
  let below st :=
    Overlay.top (Overlay.style st)
    = Overlay.Percent (Types.y b + Types.height b)
    /\ Overlay.transform (Overlay.style st) = "translateY(8px)" in
  let above st :=
    Overlay.top (Overlay.style st) = Overlay.Percent (Types.y b)
    /\ Overlay.transform (Overlay.style st)
       = "translateY(-100%) translateY(-8px)" in
  exists st,
    Overlay.handleMouseEnter blk = Some st
    /\ Overlay.block st = blk
    /\ Overlay.left (Overlay.style st) = Overlay.Percent (Types.x b)
    /\ (Types.y b + Types.height b <= 70 -> below st)
    /\ (70 < Types.y b + Types.height b -> above st)
    /\ (Types.y b + Types.height b == 85 -> above st)
    /\ (Types.y b + Types.height b == 40 -> below st).
Proof.
  intros b below above. unfold Overlay.handleMouseEnter. fold b.
  eexists. split; [reflexivity|]. cbn [Overlay.block Overlay.style].
  subst below above. cbv beta.
  unfold JS.Qltb.
  destruct (Qle_bool (Types.y b + Types.height b) 70) eqn:E;
    cbn [negb Overlay.top Overlay.transform Overlay.left
         Overlay.position Overlay.zIndex].
  - apply Qle_bool_iff in E.
    repeat split; intros; try reflexivity; exfalso; lra.
  - assert (70 < Types.y b + Types.height b).
    { apply Qnot_le_lt. intros H. apply Qle_bool_iff in H. congruence. }
    repeat split; intros; try reflexivity; exfalso; lra.
Qed.

Lemma handleMouseEnter_placement_witness :
  exists st,
    Overlay.handleMouseEnter
      (Types.mkTranslatedBlock "Ausgang" "Exit"
                               (Types.mkBoundingBox 10 75 30 10))
    = Some st
    /\ Overlay.top (Overlay.style st) = Overlay.Percent 75
    /\ Overlay.transform (Overlay.style st)
       = "translateY(-100%) translateY(-8px)".
Proof.
  destruct (handleMouseEnter_placement
              (Types.mkTranslatedBlock "Ausgang" "Exit"
                               (Types.mkBoundingBox 10 75 30 10)))
    as (st & Hst & _ & _ & _ & Habove & _).
  exists st. split; [exact Hst|].
  apply Habove. vm_compute. reflexivity.
Defined.

(** ** The download name *)

Lemma lastIndexOf_absent c s :
  ~ In c (list_ascii_of_string s) -> JS.lastIndexOf c s = (-1)%Z.
Proof.
  induction s as [|a s IH]; intros H; [reflexivity|].
  simpl in *. rewrite IH by tauto. simpl.
  destruct (Ascii.eqb_spec a c); [subst; tauto | reflexivity].
Qed.

Lemma lastIndexOf_last c stem ext :
  ~ In c (list_ascii_of_string ext) ->
  JS.lastIndexOf c (stem ++ String c ext) = Z.of_nat (String.length stem).
Proof.
  intros H. induction stem as [|a stem IH].
  - simpl. rewrite (lastIndexOf_absent _ _ H). simpl.
    now rewrite Ascii.eqb_refl.
  - cbn [append JS.lastIndexOf String.length]. rewrite IH.
    destruct (Z.leb_spec 0 (Z.of_nat (String.length stem))); lia.
Qed.

Lemma substring_prefix stem rest :
  String.substring 0 (String.length stem) (stem ++ rest) = stem.
Proof.
  induction stem as [|a stem IH]; simpl.
  - now destruct rest.
  - now rewrite IH.
Qed.

(** For a name with a dot, the download name is what precedes the last
    dot, followed by the suffix. *)
Lemma downloadName_with_extension stem ext :
  ~ In "."%char (list_ascii_of_string ext) ->
  downloadName (stem ++ "." ++ ext) = (stem ++ "-translated.png")%string.
Proof.
  intros H. unfold downloadName, JS.substring.
  change ("." ++ ext)%string with (String "." ext).
  rewrite (lastIndexOf_last _ _ _ H), length_append.
  cbn [String.length].
  rewrite Z.min_l, Z.max_r, Z.min_l, Z.max_r, Z.min_l, Z.max_r by lia.
  rewrite Z.sub_0_r, Nat2Z.id. cbn [Z.to_nat].
  now rewrite substring_prefix.
Qed.

(** C9 fails on the code for a name without a dot: [lastIndexOf] answers
    -1, [substring(0, -1)] is the empty string, and the whole name is
    lost, not only an extension. *)
Theorem downloadName_without_dot :
  JS.lastIndexOf "." "scan" = (-1)%Z
  /\ JS.substring "scan" 0 (-1) = ""
  /\ downloadName "scan" = "-translated.png"
  /\ downloadName "scan" <> "scan-translated.png"
  /\ forall name, ~ In "."%char (list_ascii_of_string name) ->
                  downloadName name = "-translated.png".
Proof.
  repeat split; try reflexivity; try discriminate.
  intros name H. unfold downloadName.
  rewrite (lastIndexOf_absent _ _ H). unfold JS.substring.
  rewrite Z.min_l, Z.max_l by lia.
  replace (Z.max 0 (Z.min (-1) (Z.of_nat (String.length name)))) with 0%Z
    by lia.
  cbn. now destruct name.
Qed.

(** ** The export *)

Section ExportProps.

Variable measureText : Z -> string -> Q.

(** Fitting a text does not touch the clipping region or the stack of
    saved states. *)
Lemma drawTextAndFit_keeps ctx text x y width height :
  clip (drawTextAndFit measureText ctx text x y width height) = clip ctx
  /\ saved (drawTextAndFit measureText ctx text x y width height)
     = saved ctx.
Proof.
  destruct (drawTextAndFit_spec measureText text x y width height ctx)
    as [(g & _ & _ & _ & ->) | (_ & ->)]; split; reflexivity.
Qed.

(** What fitting a text adds to the log does not depend on what was
    drawn before. *)
Lemma drawTextAndFit_frame ctx text x y width height :
  clip ctx = [] ->
  drawn (drawTextAndFit measureText ctx text x y width height) =
  drawn ctx ++ fitOps measureText text x y width height.
Proof.
  intros Hclip. unfold fitOps.
  destruct (drawTextAndFit_spec measureText text x y width height ctx)
    as [(g & Hg & Hfit & Hmax & ->) | (Hnone & ->)];
  destruct (drawTextAndFit_spec measureText text x y width height
                                freshCanvas)
    as [(g0 & Hg0 & Hfit0 & Hmax0 & ->) | (Hnone0 & ->)];
  cbn [drawn fittedAt clippedAt8 clip freshCanvas app]; rewrite ?Hclip.
  - assert (g = g0) as ->; [|reflexivity].
    destruct (Z.lt_trichotomy g g0) as [Hlt | [Heq | Hlt]];
      [exfalso | assumption | exfalso].
    + rewrite Hmax in Hfit0 by lia. discriminate.
    + rewrite Hmax0 in Hfit by lia. discriminate.
  - rewrite Hnone0 in Hfit by lia. discriminate.
  - rewrite Hnone in Hfit0 by lia. discriminate.
  - reflexivity.
Qed.

Variables canvasWidth canvasHeight : Q.

Lemma drawBlock_degenerate ctx b :
  degenerate (toPixels (Types.boundingBox b) canvasWidth canvasHeight) = true ->
  drawBlock measureText canvasWidth canvasHeight ctx b = ctx.
Proof. unfold drawBlock, degenerate. now intros ->. Qed.

Lemma drawBlock_drawn ctx b :
  clip ctx = [] ->
  clip (drawBlock measureText canvasWidth canvasHeight ctx b) = []
  /\ drawn (drawBlock measureText canvasWidth canvasHeight ctx b) =
     drawn ctx ++ blockOps measureText canvasWidth canvasHeight b.
Proof.
  intros Hclip. unfold drawBlock, blockOps, degenerate.
  set (r := toPixels (Types.boundingBox b) canvasWidth canvasHeight).
  destruct (JS.Qltb (rw r) 1 || JS.Qltb (rh r) 1)%bool.
  - now rewrite app_nil_r.
  - split.
    + now rewrite (proj1 (drawTextAndFit_keeps _ _ _ _ _ _)).
    + rewrite drawTextAndFit_frame by assumption.
      cbn [drawn Ctx.fillRect Ctx.emit Ctx.setFillStyle fillStyle clip].
      rewrite Hclip, <- app_assoc. reflexivity.
Qed.

Lemma fold_drawBlock blocks : forall ctx,
  clip ctx = [] ->
  drawn (fold_left (drawBlock measureText canvasWidth canvasHeight)
                   blocks ctx) =
  drawn ctx ++ flat_map (blockOps measureText canvasWidth canvasHeight)
                        blocks.
Proof.
  induction blocks as [|b bs IH]; intros ctx Hclip; simpl.
  - now rewrite app_nil_r.
  - destruct (drawBlock_drawn ctx b Hclip) as [Hc Hd].
    rewrite IH, Hd, <- app_assoc by assumption. reflexivity.
Qed.


End ExportProps.

Lemma degenerate_iff (r : Rect) :
  degenerate r = true <-> rw r < 1 \/ rh r < 1.
Proof.
  unfold degenerate, JS.Qltb. rewrite orb_true_iff, !negb_true_iff.
  assert (H : forall v, Qle_bool 1 v = false <-> v < 1).
  { intros v. split; intros H.
    - apply Qnot_le_lt. intros Hle. apply Qle_bool_iff in Hle. congruence.
    - destruct (Qle_bool 1 v) eqn:E; [|reflexivity].
      apply Qle_bool_iff in E. lra. }
  now rewrite !H.
Qed.



(** ** Response validation *)

Lemma hasProp_present key v :
  Gemini.hasProp key v = true <-> Contract.present key v.
Proof.
  unfold Contract.present, Gemini.hasProp, Gemini.getProp.
  destruct v as [| | | | |props]; try (split; [discriminate | congruence]).
  induction props as [|[k val] ps IH]; simpl.
  - split; [discriminate | congruence].
  - destruct (k =? key)%string; simpl; [split; [discriminate | reflexivity]|].
    exact IH.
Qed.

Lemma present_typeofObject key v :
  Contract.present key v ->
  Gemini.typeofObject v = true /\ Gemini.isNull v = false.
Proof.
  unfold Contract.present.
  destruct v; simpl; try congruence. now split.
Qed.

Lemma validBlock_iff item :
  Gemini.validBlock item = true <-> Contract.blockWith Contract.boxPresent item.
Proof.
  unfold Gemini.validBlock, Contract.blockWith, Contract.boxPresent.
  split.
  - intros H.
    destruct (Gemini.getProp "boundingBox" item) as [bb|] eqn:Ebb;
      [|rewrite andb_false_r in H; discriminate].
    repeat match goal with
           | Hc : (_ && _)%bool = true |- _ =>
               apply andb_true_iff in Hc as [? ?]
           end.
    repeat match goal with
           | Hp : Gemini.hasProp _ _ = true |- _ =>
               apply hasProp_present in Hp
           end.
    split; [assumption|]. split; [assumption|].
    exists bb. now repeat split.
  - intros (Ho & Ht & bb & Ebb & Hx & Hy & Hw & Hh).
    destruct (present_typeofObject _ _ Ho) as [-> ->].
    destruct (present_typeofObject _ _ Hx) as [Hbo Hbn].
    assert (Hb : Contract.present "boundingBox" item).
    { unfold Contract.present. congruence. }
    apply hasProp_present in Ho, Ht, Hb, Hx, Hy, Hw, Hh.
    rewrite Ho, Ht, Hb, Ebb, Hbo, Hbn, Hx, Hy, Hw, Hh. reflexivity.
Qed.

Lemma forallb_validBlock blocks :
  forallb Gemini.validBlock blocks = true
  <-> Forall (Contract.blockWith Contract.boxPresent) blocks.
Proof.
  rewrite forallb_forall, Forall_forall.
  split; intros H item Hin; apply validBlock_iff, H, Hin.
Qed.

(** The checks of the code pass exactly on the responses with the shape
    of the contract, fields present. *)
Lemma checkResponse_returns v :
  (exists r, Gemini.checkResponse v = Return r)
  <-> Contract.responseWith Contract.boxPresent v.
Proof.
  unfold Gemini.checkResponse, Contract.responseWith. split.
  - intros [r H].
    destruct (negb (Gemini.typeofObject v) || Gemini.isNull v
              || negb (Gemini.hasProp "translationBlocks" v)
              || negb (Gemini.isArray
                         (Gemini.getProp "translationBlocks" v))
              || negb (Gemini.hasProp "formattedTranslation" v)
              || negb (Gemini.isString
                         (Gemini.getProp "formattedTranslation" v)))%bool;
      [discriminate|].
    destruct (Gemini.getProp "translationBlocks" v) as [[| | | |blocks|]|];
      try discriminate.
    destruct (Gemini.getProp "formattedTranslation" v)
      as [[| | |formatted| |]|]; try discriminate.
    exists blocks, formatted. split; [reflexivity|]. split; [reflexivity|].
    destruct (forallb Gemini.validBlock blocks) eqn:E; [|discriminate].
    now apply forallb_validBlock.
  - intros (blocks & formatted & Hb & Hf & Hall).
    assert (Hpb : Contract.present "translationBlocks" v)
      by (unfold Contract.present; congruence).
    assert (Hpf : Contract.present "formattedTranslation" v)
      by (unfold Contract.present; congruence).
    destruct (present_typeofObject _ _ Hpb) as [-> ->].
    apply hasProp_present in Hpb, Hpf.
    rewrite Hpb, Hpf, Hb, Hf. cbn.
    apply forallb_validBlock in Hall. rewrite Hall. cbn.
    eexists. reflexivity.
Qed.

Lemma checkResponse_value v blocks formatted :
  Gemini.getProp "translationBlocks" v = Some (JArr blocks) ->
  Gemini.getProp "formattedTranslation" v = Some (JStr formatted) ->
  Forall (Contract.blockWith Contract.boxPresent) blocks ->
  Gemini.checkResponse v =
  Return (Gemini.mkTranslationResult blocks (JS.unescapeNewlines formatted)).
Proof.
  intros Hb Hf Hall.
  assert (Hpb : Contract.present "translationBlocks" v)
    by (unfold Contract.present; congruence).
  assert (Hpf : Contract.present "formattedTranslation" v)
    by (unfold Contract.present; congruence).
  unfold Gemini.checkResponse.
  destruct (present_typeofObject _ _ Hpb) as [-> ->].
  apply hasProp_present in Hpb, Hpf.
  rewrite Hpb, Hpf, Hb, Hf. cbn.
  apply forallb_validBlock in Hall. now rewrite Hall.
Qed.


(** C4, as amended.  For every parsed response, the translation call
    throws exactly when the response is not an object with
    [translationBlocks] an array, [formattedTranslation] a string, and in
    every block [originalText], [translatedText] and a [boundingBox] with
    [x], [y], [width] and [height] present; the types of the block fields
    are not looked at.  A response that passes is returned, its blocks as
    received and its formatted text with every escaped line break turned
    into a line feed.  After a throw the handler shows the error and no
    translation result; after a return it shows the result. *)
Theorem translateImageContent_rejects_iff (v : json) :
  ((exists message, Gemini.translateImageContent v = Throw message)
   <-> ~ Contract.responseWith Contract.boxPresent v)
  /\ (forall blocks formatted,
         Gemini.getProp "translationBlocks" v = Some (JArr blocks) ->
         Gemini.getProp "formattedTranslation" v = Some (JStr formatted) ->
         Forall (Contract.blockWith Contract.boxPresent) blocks ->
         Gemini.translateImageContent v =
         Return (Gemini.mkTranslationResult
                   blocks (JS.unescapeNewlines formatted)))
  /\ (forall st message,
         readyToTranslate st ->
         Gemini.translateImageContent v = Throw message ->
         App.handleTranslate st v =
         App.mkState (App.file st) (App.fileDataURL st) None false
                     (Some message))
  /\ (forall st r,
         readyToTranslate st ->
         Gemini.translateImageContent v = Return r ->
         App.handleTranslate st v =
         App.mkState (App.file st) (App.fileDataURL st) (Some r) false None).
Proof.
  split; [|split; [|split]].
  - pose proof (checkResponse_returns v) as H.
    unfold Gemini.translateImageContent.
    destruct (Gemini.checkResponse v) as [r|msg]; split.
    + intros [message Hm]. discriminate.
    + intros Hn. exfalso. apply Hn, H. now exists r.
    + intros _ Hs. apply H in Hs as [r Hr]. discriminate.
    + intros _. eexists. reflexivity.
  - intros blocks formatted Hb Hf Hall.
    unfold Gemini.translateImageContent.
    now rewrite (checkResponse_value v blocks formatted).
  - intros st message (f & url & Hfile & Hurl & Hne) Ht.
    unfold App.handleTranslate. rewrite Hfile, Hurl, Ht.
    unfold JS.falsy. now destruct (String.eqb_spec url "").
  - intros st r (f & url & Hfile & Hurl & Hne) Ht.
    unfold App.handleTranslate. rewrite Hfile, Hurl, Ht.
    unfold JS.falsy. now destruct (String.eqb_spec url "").
Qed.

(** A response without [formattedTranslation]: the call throws and the
    handler shows the message and no result. *)
Lemma translateImageContent_rejects_iff_witness :
  let st := App.mkState (Some (App.mkFile "scan.png" "image/png"))
                        (Some "data:image/png;base64,AAAA") None false None in
  let v := JObj [("translationBlocks", JArr [])] in
  App.handleTranslate st v =
  App.mkState (App.file st) (App.fileDataURL st) None false
    (Some ("Failed to get translation from AI: "
           ++ Gemini.structureError)%string).
Proof.
  intros st v.
  refine (proj1 (proj2 (proj2 (translateImageContent_rejects_iff v)))
                st _ _ eq_refl).
  exists (App.mkFile "scan.png" "image/png"), "data:image/png;base64,AAAA".
  split; [reflexivity|]. split; [reflexivity | discriminate].
Defined.

(** C4 as stated fails where it asks for numeric fields: a block whose
    [boundingBox] has [x] present as a string passes the checks of the
    code, and the response is returned and shown. *)
Lemma translateImageContent_numeric_counterexample :
  let box := JObj [("x", JStr "left"); ("y", JNum 10);
                   ("width", JNum 30); ("height", JNum 10)] in
  let item := JObj [("originalText", JStr "Ausgang");
                    ("translatedText", JStr "Exit");
                    ("boundingBox", box)] in
  let v := JObj [("translationBlocks", JArr [item]);
                 ("formattedTranslation", JStr "Exit")] in
  ~ Contract.responseWith Contract.boxNumeric v
  /\ Gemini.translateImageContent v =
     Return (Gemini.mkTranslationResult [item] "Exit").
Proof.
  cbv zeta. split; [|reflexivity].
  intros (blocks & formatted & Hb & _ & Hall).
  cbn in Hb. injection Hb as <-.
  inversion Hall as [|? ? (_ & _ & bb & Hbb & ([n Hx] & _)) _]; subst.
  cbn in Hbb. injection Hbb as <-.
  cbn in Hx. discriminate.
Qed.

(** * Further properties *)

(** ** More on the word wrap *)

Lemma Qltb_lt (a b : Q) : JS.Qltb a b = true <-> a < b.
Proof.
  unfold JS.Qltb. rewrite negb_true_iff. split; intros H.
  - apply Qnot_le_lt. intros Hle. apply Qle_bool_iff in Hle. congruence.
  - destruct (Qle_bool b a) eqn:E; [|reflexivity].
    apply Qle_bool_iff in E. lra.
Qed.

Lemma extend_empty_iff line word :
  extend line word = "" <-> line = "" /\ word = "".
Proof.
  split.
  - intros H. destruct (String.eqb_spec line "") as [->|Hl].
    + now rewrite extend_empty in H.
    + now apply extend_nonempty in H.
  - intros [-> ->]. reflexivity.
Qed.

Section WrapMore.

Variable measure : string -> Q.
Variable maxWidth : Q.

Lemma rejected_nonempty line word :
  accepts measure maxWidth line word = false -> line <> "".
Proof.
  unfold accepts. intros H. apply orb_false_elim in H as [_ H].
  now apply String.eqb_neq.
Qed.

Lemma accepted_fits line word :
  line <> "" -> accepts measure maxWidth line word = true ->
  measure (extend line word) < maxWidth.
Proof.
  unfold accepts. intros Hl H.
  apply String.eqb_neq in Hl. rewrite Hl, orb_false_r in H.
  now apply Qltb_lt.
Qed.

Lemma greedy_lines_nonempty words : forall line,
  Forall (fun l => l <> "") (greedy measure maxWidth line words).
Proof.
  induction words as [|w ws IH]; intros line; cbn [greedy].
  - destruct (String.eqb_spec line ""); [constructor|].
    now repeat constructor.
  - destruct (accepts measure maxWidth line w) eqn:E; [apply IH|].
    constructor; [now apply (rejected_nonempty _ _ E) | apply IH].
Qed.

Lemma greedy_nil_iff words : forall line,
  greedy measure maxWidth line words = []
  <-> line = "" /\ Forall (fun w => w = "") words.
Proof.
  induction words as [|w ws IH]; intros line; cbn [greedy].
  - destruct (String.eqb_spec line "") as [->|Hl]; split; try tauto.
    + intros _. now split.
    + discriminate.
  - destruct (accepts measure maxWidth line w) eqn:E.
    + rewrite IH, extend_empty_iff. split.
      * intros [[-> ->] H]. split; [reflexivity | now constructor].
      * intros [-> H]. inversion H; subst. now repeat split.
    + split; [discriminate|].
      intros [Hl _]. now apply (rejected_nonempty _ _ E) in Hl.
Qed.

Lemma greedy_length words : forall line,
  (List.length (greedy measure maxWidth line words)
   <= List.length words + (if (line =? "")%string then 0 else 1))%nat.
Proof.
  induction words as [|w ws IH]; intros line; cbn [greedy List.length].
  - destruct (line =? "")%string; simpl; lia.
  - destruct (accepts measure maxWidth line w) eqn:E.
    + specialize (IH (extend line w)).
      destruct (String.eqb_spec line "") as [->|Hl].
      * rewrite extend_empty in *.
        destruct (w =? "")%string; lia.
      * destruct (String.eqb_spec (extend line w) "") as [He|He]; lia.
    + specialize (IH w).
      pose proof (rejected_nonempty _ _ E) as Hl.
      apply String.eqb_neq in Hl. rewrite Hl. simpl.
      destruct (w =? "")%string; lia.
Qed.

(** Only a line that is a word by itself can reach the max width. *)
Lemma greedy_line_fits (all : list string) words : forall line,
  line = "" \/ In line all \/ measure line < maxWidth ->
  incl words all ->
  Forall (fun l => In l all \/ measure l < maxWidth)
         (greedy measure maxWidth line words).
Proof.
  induction words as [|w ws IH]; intros line Hline Hincl; cbn [greedy].
  - destruct (String.eqb_spec line "") as [->|Hl]; [constructor|].
    constructor; [tauto | constructor].
  - assert (Hw : In w all) by (apply Hincl; now left).
    assert (Hws : incl ws all)
      by (intros a Ha; apply Hincl; now right).
    destruct (accepts measure maxWidth line w) eqn:E.
    + apply IH; [|assumption].
      destruct (String.eqb_spec line "") as [->|Hl].
      * rewrite extend_empty. tauto.
      * right. right. now apply accepted_fits.
    + pose proof (rejected_nonempty _ _ E) as Hl.
      constructor; [tauto|].
      apply IH; [tauto | assumption].
Qed.

(** When every extension still measures under the max width, nothing is
    ever committed before the end. *)
Lemma greedy_single_line words : forall line,
  (forall l w, measure l <= measure (l ++ " " ++ w)%string) ->
  line <> "" ->
  measure (String.concat " " (line :: words)) < maxWidth ->
  greedy measure maxWidth line words = [String.concat " " (line :: words)].
Proof.
  intros line Hgrow. revert line.
  induction words as [|w ws IH]; intros line Hl Hm; cbn [greedy].
  - cbn. now destruct (String.eqb_spec line "").
  - assert (He : extend line w <> "") by now apply extend_nonempty.
    rewrite <- (concat_extend line w ws Hl) in Hm |- *.
    assert (Ha : accepts measure maxWidth line w = true).
    { unfold accepts. apply orb_true_iff. left. apply Qltb_lt.
      destruct ws as [|w' ws']; [exact Hm|].
      rewrite concat_cons2 in Hm.
      eapply Qle_lt_trans; [apply Hgrow | exact Hm]. }
    rewrite Ha. now apply IH.
Qed.

(** When nothing measures under the max width, a line is closed as soon
    as it holds a word. *)
Lemma greedy_one_word_per_line words : forall line,
  (forall s, maxWidth <= measure s) ->
  greedy measure maxWidth line words =
  (if (line =? "")%string then [] else [line]) ++ filter nonEmpty words.
Proof.
  intros line Hwide. revert line.
  induction words as [|w ws IH]; intros line; cbn [greedy filter].
  - now rewrite app_nil_r.
  - assert (Ha : accepts measure maxWidth line w = (line =? "")%string).
    { unfold accepts.
      destruct (JS.Qltb (measure (extend line w)) maxWidth) eqn:E;
        [|reflexivity].
      apply Qltb_lt in E. specialize (Hwide (extend line w)). lra. }
    rewrite Ha, !IH. clear Ha. unfold nonEmpty at 3.
    destruct (String.eqb_spec line "") as [Hl|Hl].
    + subst line. rewrite extend_empty. now destruct (w =? "")%string.
    + now destruct (w =? "")%string.
Qed.

End WrapMore.

(** X1.  [getWrappedLines] never returns an empty line. *)
Theorem getWrappedLines_no_empty_line
        (measureText : Z -> string -> Q) (ctx : Canvas)
        (text : string) (maxWidth : Q) :
  Forall (fun line => line <> "")
         (getWrappedLines measureText ctx text maxWidth).
Proof.
  rewrite getWrappedLines_words, wrapWords_greedy.
  apply greedy_lines_nonempty.
Qed.

(** X2.  [getWrappedLines] returns no line at all exactly when every
    piece of the text between spaces is empty, that is, when the text is
    empty or made of spaces only. *)
Theorem getWrappedLines_nil_iff
        (measureText : Z -> string -> Q) (ctx : Canvas)
        (text : string) (maxWidth : Q) :
  getWrappedLines measureText ctx text maxWidth = []
  <-> Forall (fun w => w = "") (JS.split " " text).
Proof.
  rewrite getWrappedLines_words, wrapWords_greedy. unfold greedyWrap.
  rewrite greedy_nil_iff. tauto.
Qed.

(** X3.  [getWrappedLines] returns at most as many lines as the text has
    pieces between spaces. *)
Theorem getWrappedLines_length
        (measureText : Z -> string -> Q) (ctx : Canvas)
        (text : string) (maxWidth : Q) :
  (List.length (getWrappedLines measureText ctx text maxWidth)
   <= List.length (JS.split " " text))%nat.
Proof.
  rewrite getWrappedLines_words, wrapWords_greedy. unfold greedyWrap.
  pose proof (greedy_length (measureText (font ctx)) maxWidth
                            (JS.split " " text) "") as H.
  simpl in H. lia.
Qed.

(** X4.  Every line [getWrappedLines] returns either measures strictly
    under the max width or is one single word of the text: only a word by
    itself can overflow. *)
Theorem getWrappedLines_overflow_single_word
        (measureText : Z -> string -> Q) (ctx : Canvas)
        (text : string) (maxWidth : Q) :
  Forall (fun line =>
            In line (JS.split " " text)
            \/ measureText (font ctx) line < maxWidth)
         (getWrappedLines measureText ctx text maxWidth).
Proof.
  rewrite getWrappedLines_words, wrapWords_greedy. unfold greedyWrap.
  apply greedy_line_fits; [now left | apply incl_refl].
Qed.

(** X5.  When extending a line never makes it measure less, a text with
    no empty piece that measures under the max width as a whole comes
    back as one line, the text itself. *)
Theorem getWrappedLines_single_line
        (measureText : Z -> string -> Q) (ctx : Canvas)
        (text : string) (maxWidth : Q) :
  (forall l w, measureText (font ctx) l
               <= measureText (font ctx) (l ++ " " ++ w)%string) ->
  Forall (fun w => w <> "") (JS.split " " text) ->
  measureText (font ctx) text < maxWidth ->
  getWrappedLines measureText ctx text maxWidth = [text].
Proof.
  intros Hgrow Hw Hm.
  rewrite getWrappedLines_words, wrapWords_greedy. unfold greedyWrap.
  rewrite <- (concat_split text) in Hm |- * at 2.
  pose proof (split_not_nil " "%char text) as Hn.
  destruct (JS.split " " text) as [|w ws]; [contradiction|].
  inversion Hw as [|? ? Hw1 Hw2]; subst.
  cbn [greedy]. rewrite accepts_empty, extend_empty.
  now apply greedy_single_line.
Qed.

Lemma getWrappedLines_single_line_witness :
  getWrappedLines unitWidth freshCanvas "aa bb cc" 20 = ["aa bb cc"].
Proof.
  apply getWrappedLines_single_line.
  - intros l w. apply unitWidth_grows.
  - repeat constructor; discriminate.
  - vm_compute. reflexivity.
Defined.

(** X6.  When no string measures under the max width (a box too narrow
    for anything), every non-empty piece of the text is a line of its
    own and the empty pieces are dropped. *)
Theorem getWrappedLines_one_word_per_line
        (measureText : Z -> string -> Q) (ctx : Canvas)
        (text : string) (maxWidth : Q) :
  (forall s, maxWidth <= measureText (font ctx) s) ->
  getWrappedLines measureText ctx text maxWidth =
  filter nonEmpty (JS.split " " text).
Proof.
  intros Hwide.
  rewrite getWrappedLines_words, wrapWords_greedy. unfold greedyWrap.
  now rewrite greedy_one_word_per_line.
Qed.

Lemma unitWidth_nonneg fontPx s : 0 <= unitWidth fontPx s.
Proof.
  unfold unitWidth. change 0 with (inject_Z 0). rewrite <- Zle_Qle. lia.
Qed.

Lemma getWrappedLines_one_word_per_line_witness :
  getWrappedLines unitWidth freshCanvas "to  be or" 0 = ["to"; "be"; "or"].
Proof.
  apply (getWrappedLines_one_word_per_line unitWidth freshCanvas "to  be or" 0).
  intros s. apply unitWidth_nonneg.
Defined.

(** ** More on the text fit *)

Section FitMore.

Variable measureText : Z -> string -> Q.
Variables (text : string) (x y width height : Q).

Lemma lineOps_isFillText fontPx baseline fill clipped lineHeight lines :
  forall i,
  Forall (fun op => isFillText op = true)
         (lineOps measureText fontPx baseline fill clipped x y width
                  lineHeight i lines).
Proof.
  induction lines as [|l ls IH]; intros i; cbn [lineOps]; constructor;
    [reflexivity | apply IH].
Qed.

Lemma lineOps_centred fontPx baseline fill clipped lineHeight lines :
  forall i,
  Forall (lineCentred measureText x width)
         (lineOps measureText fontPx baseline fill clipped x y width
                  lineHeight i lines).
Proof.
  induction lines as [|l ls IH]; intros i; cbn [lineOps]; constructor;
    [|apply IH].
  cbn [lineCentred]. unfold Qdiv. ring.
Qed.

Lemma lineOps_inBox fontPx baseline fill clipped lines : forall i,
  (0 <= fontPx)%Z ->
  inject_Z (Z.of_nat (i + List.length lines)) * (inject_Z fontPx * 1.2)
  <= height ->
  Forall (lineInBox clipped y height)
         (lineOps measureText fontPx baseline fill clipped x y width
                  (inject_Z fontPx * 1.2) i lines).
Proof.
  intros i Hf. revert i.
  assert (Hlh : 0 <= inject_Z fontPx * 1.2).
  { apply Qmult_le_0_compat; [|discriminate].
    change 0 with (inject_Z 0). now rewrite <- Zle_Qle. }
  induction lines as [|l ls IH]; intros i Hfit; cbn [lineOps];
    constructor.
  - cbn [lineInBox List.length] in *.
    set (lh := inject_Z fontPx * 1.2) in *.
    assert (Ha : 0 <= inject_Z (Z.of_nat i)).
    { change 0 with (inject_Z 0). rewrite <- Zle_Qle. lia. }
    assert (Hb : inject_Z (Z.of_nat i) + 1
                 <= inject_Z (Z.of_nat (i + S (List.length ls)))).
    { change 1 with (inject_Z 1). rewrite <- inject_Z_plus, <- Zle_Qle. lia. }
    split; [reflexivity|]. split; nra.
  - apply IH. cbn [List.length] in Hfit.
    now replace (S i + List.length ls)%nat
      with (i + S (List.length ls))%nat by lia.
Qed.

Lemma linesAt_blank g :
  Forall (fun w => w = "") (JS.split " " text) ->
  linesAt measureText text width g = [].
Proof.
  intros H. unfold linesAt.
  rewrite getWrappedLines_words, wrapWords_greedy. unfold greedyWrap.
  apply greedy_nil_iff. now split.
Qed.

End FitMore.


(** X8.  Whatever [drawTextAndFit] draws is vertically inside the box or
    clipped to it: every [fillText] it adds either has its line between
    [y] and [y + height] under the caller's clipping region, or is drawn
    at size 8 with the box in the clipping region. *)
Theorem drawTextAndFit_inside_or_clipped
        (measureText : Z -> string -> Q) (ctx : Canvas) (text : string)
        (x y width height : Q) :
  exists ops,
    drawn (drawTextAndFit measureText ctx text x y width height)
    = drawn ctx ++ ops
    /\ Forall (fun op =>
                 lineInBox (clip ctx) y height op
                 \/ textClippedTo 8 (mkRect x y width height) op)
              ops.
Proof.
  destruct (drawTextAndFit_spec measureText text x y width height ctx)
    as [(g & Hg & Hfit & _ & ->) | (_ & ->)];
    cbn [drawn fittedAt clippedAt8]; eexists; (split; [reflexivity|]).
  - eapply Forall_impl; [intros op H; left; exact H|].
    apply lineOps_inBox; [lia|].
    unfold fitsAt in Hfit. now apply Qle_bool_iff in Hfit.
  - eapply Forall_impl; [intros op H; right; exact H|].
    apply lineOps_clipped. now left.
Qed.

(** X9.  Every line [drawTextAndFit] draws is centred horizontally in the
    box: the middle of the text as measured is at [x + width / 2], in the
    fitted case and in the fallback. *)
Theorem drawTextAndFit_centred
        (measureText : Z -> string -> Q) (ctx : Canvas) (text : string)
        (x y width height : Q) :
  exists ops,
    drawn (drawTextAndFit measureText ctx text x y width height)
    = drawn ctx ++ ops
    /\ Forall (lineCentred measureText x width) ops.
Proof.
  destruct (drawTextAndFit_spec measureText text x y width height ctx)
    as [(g & _ & _ & _ & ->) | (_ & ->)];
    cbn [drawn fittedAt clippedAt8]; eexists; (split; [reflexivity|]);
    apply lineOps_centred.
Qed.

(** X10.  [drawTextAndFit] only adds [fillText] calls to what was drawn,
    leaves the clipping region and the stack of saved states as it found
    them, and leaves the baseline at the top and the fill white. *)
Theorem drawTextAndFit_frame_state
        (measureText : Z -> string -> Q) (ctx : Canvas) (text : string)
        (x y width height : Q) :
  let result := drawTextAndFit measureText ctx text x y width height in
  clip result = clip ctx
  /\ saved result = saved ctx
  /\ textBaseline result = "top"
  /\ fillStyle result = "white"
  /\ exists ops,
       drawn result = drawn ctx ++ ops
       /\ Forall (fun op => isFillText op = true) ops.
Proof.
  cbv zeta.
  destruct (drawTextAndFit_spec measureText text x y width height ctx)
    as [(g & _ & _ & _ & ->) | (_ & ->)];
    cbn [drawn clip saved textBaseline fillStyle fittedAt clippedAt8];
    repeat (split; [reflexivity|]);
    eexists; (split; [reflexivity|]); apply lineOps_isFillText.
Qed.

(** X11.  What [drawTextAndFit] chooses and draws does not depend on the
    font, baseline, fill style, path or log it starts from: on two
    contexts with the same clipping region it leaves the same font size
    and adds the same calls.  In particular a second call with the same
    arguments repeats the first. *)
Theorem drawTextAndFit_context_independent
        (measureText : Z -> string -> Q) (ctx1 ctx2 : Canvas) (text : string)
        (x y width height : Q) :
  clip ctx1 = clip ctx2 ->
  let r1 := drawTextAndFit measureText ctx1 text x y width height in
  let r2 := drawTextAndFit measureText ctx2 text x y width height in
  font r1 = font r2
  /\ exists ops, drawn r1 = drawn ctx1 ++ ops /\ drawn r2 = drawn ctx2 ++ ops.
Proof.
  intros Hclip. cbv zeta.
  destruct (drawTextAndFit_spec measureText text x y width height ctx1)
    as [(g1 & Hg1 & Hfit1 & Hmax1 & ->) | (Hnone1 & ->)];
  destruct (drawTextAndFit_spec measureText text x y width height ctx2)
    as [(g2 & Hg2 & Hfit2 & Hmax2 & ->) | (Hnone2 & ->)];
  cbn [font drawn fittedAt clippedAt8]; rewrite ?Hclip.
  - assert (g1 = g2) as ->.
    { destruct (Z.lt_trichotomy g1 g2) as [Hlt | [Heq | Hlt]];
        [exfalso | assumption | exfalso].
      - rewrite Hmax1 in Hfit2 by lia. discriminate.
      - rewrite Hmax2 in Hfit1 by lia. discriminate. }
    split; [reflexivity|]. eexists. split; reflexivity.
  - rewrite Hnone2 in Hfit1 by lia. discriminate.
  - rewrite Hnone1 in Hfit2 by lia. discriminate.
  - split; [reflexivity|]. eexists. split; reflexivity.
Qed.

Lemma drawTextAndFit_context_independent_witness :
  let once := drawTextAndFit unitWidth freshCanvas "hello world" 0 0 9 40 in
  let twice := drawTextAndFit unitWidth once "hello world" 0 0 9 40 in
  font once = font twice
  /\ exists ops,
       drawn once = drawn freshCanvas ++ ops /\ drawn twice = drawn once ++ ops.
Proof.
  refine (drawTextAndFit_context_independent
            unitWidth freshCanvas
            (drawTextAndFit unitWidth freshCanvas "hello world" 0 0 9 40)
            "hello world" 0 0 9 40 _).
  vm_compute. reflexivity.
Defined.

(** X12.  In a box less than 16 high the loop body never runs: whatever
    the text, [drawTextAndFit] goes straight to the fallback, size 8
    clipped to the box. *)
Theorem drawTextAndFit_low_box
        (measureText : Z -> string -> Q) (ctx : Canvas) (text : string)
        (x y width height : Q) :
  height < 16 ->
  drawTextAndFit measureText ctx text x y width height =
  drawClipped measureText ctx text x y width height.
Proof.
  intros Hh. unfold drawTextAndFit.
  assert (Hstart : (Qfloor (height / 2) < 8)%Z).
  { rewrite Zlt_Qlt.
    eapply Qle_lt_trans; [apply Qfloor_le|].
    apply Qlt_shift_div_r; [reflexivity | exact Hh]. }
  rewrite fitLoop_once.
  destruct (Z.leb_spec 8 (Qfloor (height / 2))); [lia|].
  destruct (Z.ltb_spec (Qfloor (height / 2)) 8); [reflexivity | lia].
Qed.

Lemma drawTextAndFit_low_box_witness :
  drawTextAndFit unitWidth freshCanvas "a" 0 0 50 15 =
  drawClipped unitWidth freshCanvas "a" 0 0 50 15.
Proof.
  apply drawTextAndFit_low_box. vm_compute. reflexivity.
Defined.

(** X13.  For a text that is empty or made of spaces only,
    [drawTextAndFit] draws nothing, whatever the box. *)
Theorem drawTextAndFit_blank_text
        (measureText : Z -> string -> Q) (ctx : Canvas) (text : string)
        (x y width height : Q) :
  Forall (fun w => w = "") (JS.split " " text) ->
  drawn (drawTextAndFit measureText ctx text x y width height) = drawn ctx.
Proof.
  intros Hblank.
  destruct (drawTextAndFit_spec measureText text x y width height ctx)
    as [(g & _ & _ & _ & ->) | (_ & ->)];
    cbn [drawn fittedAt clippedAt8];
    rewrite (linesAt_blank measureText text width _ Hblank);
    apply app_nil_r.
Qed.

Lemma drawTextAndFit_blank_text_witness :
  drawn (drawTextAndFit unitWidth freshCanvas "   " 10 20 100 100) = [].
Proof.
  apply (drawTextAndFit_blank_text unitWidth freshCanvas "   " 10 20 100 100).
  repeat constructor.
Defined.

(** X14.  The font size [drawTextAndFit] leaves set is at least 8 and at
    most the larger of 8 and [floor(height / 2)]. *)
Theorem chosenFontSize_bounds
        (measureText : Z -> string -> Q) (ctx : Canvas) (text : string)
        (x y width height : Q) :
  (8 <= chosenFontSize measureText ctx text x y width height
   <= Z.max 8 (Qfloor (height / 2)))%Z.
Proof.
  unfold chosenFontSize.
  destruct (drawTextAndFit_spec measureText text x y width height ctx)
    as [(g & Hg & _ & _ & ->) | (_ & ->)];
    cbn [font fittedAt clippedAt8]; lia.
Qed.

(** ** More on the export *)

(** X15.  A percentage box that lies inside the image (non-negative
    fields, [x + width <= 100], [y + height <= 100]) becomes a pixel
    rectangle that lies inside the canvas: its sides are non-negative and
    its right and bottom edges do not pass the canvas width and height. *)
Theorem toPixels_inside_canvas
        (b : Types.BoundingBox) (canvasWidth canvasHeight : Q) :
  0 <= Types.x b -> 0 <= Types.y b ->
  0 <= Types.width b -> 0 <= Types.height b ->
  Types.x b + Types.width b <= 100 -> Types.y b + Types.height b <= 100 ->
  0 <= canvasWidth -> 0 <= canvasHeight ->
  let r := toPixels b canvasWidth canvasHeight in
  0 <= rx r /\ 0 <= ry r /\ 0 <= rw r /\ 0 <= rh r
  /\ rx r + rw r <= canvasWidth /\ ry r + rh r <= canvasHeight.
Proof.
  intros Hx Hy Hw Hh Hxw Hyh HW HH r. subst r.
  cbn [toPixels rx ry rw rh].
  assert (Hpos : forall p, 0 <= p -> 0 <= p / 100).
  { intros p Hp. apply Qle_shift_div_l; [reflexivity | lra]. }
  assert (Hsum : forall p q, p + q <= 100 -> p / 100 + q / 100 <= 1).
  { intros p q Hpq.
    assert (E : p / 100 + q / 100 == (p + q) / 100) by (unfold Qdiv; ring).
    rewrite E. apply Qle_shift_div_r; [reflexivity | lra]. }
  pose proof (Hpos _ Hx). pose proof (Hpos _ Hy).
  pose proof (Hpos _ Hw). pose proof (Hpos _ Hh).
  pose proof (Hsum _ _ Hxw). pose proof (Hsum _ _ Hyh).
  repeat split; try (apply Qmult_le_0_compat; assumption); nra.
Qed.

Lemma toPixels_inside_canvas_witness :
  let r := toPixels (Types.mkBoundingBox 40 70 60 30) 640 480 in
  0 <= rx r /\ 0 <= ry r /\ 0 <= rw r /\ 0 <= rh r
  /\ rx r + rw r <= 640 /\ ry r + rh r <= 480.
Proof.
  refine (toPixels_inside_canvas (Types.mkBoundingBox 40 70 60 30) 640 480
                                 _ _ _ _ _ _ _ _);
    vm_compute; congruence.
Defined.

Section ExportMore.

Variable measureText : Z -> string -> Q.
Variables canvasWidth canvasHeight : Q.

Lemma drawBlock_keeps ctx b :
  clip (drawBlock measureText canvasWidth canvasHeight ctx b) = clip ctx
  /\ saved (drawBlock measureText canvasWidth canvasHeight ctx b)
     = saved ctx.
Proof.
  unfold drawBlock.
  destruct (JS.Qltb _ 1 || JS.Qltb _ 1)%bool; [now split|].
  destruct (drawTextAndFit_keeps
              measureText
              (Ctx.fillRect
                 (Ctx.setFillStyle ctx "#111827")
                 (rx (toPixels (Types.boundingBox b) canvasWidth canvasHeight))
                 (ry (toPixels (Types.boundingBox b) canvasWidth canvasHeight))
                 (rw (toPixels (Types.boundingBox b) canvasWidth canvasHeight))
                 (rh (toPixels (Types.boundingBox b) canvasWidth canvasHeight)))
              (Types.translatedText b)
              (rx (toPixels (Types.boundingBox b) canvasWidth canvasHeight))
              (ry (toPixels (Types.boundingBox b) canvasWidth canvasHeight))
              (rw (toPixels (Types.boundingBox b) canvasWidth canvasHeight))
              (rh (toPixels (Types.boundingBox b) canvasWidth canvasHeight)))
    as [Hc Hs].
  now rewrite Hc, Hs.
Qed.

Lemma fold_drawBlock_keeps blocks : forall ctx,
  clip (fold_left (drawBlock measureText canvasWidth canvasHeight)
                  blocks ctx) = clip ctx
  /\ saved (fold_left (drawBlock measureText canvasWidth canvasHeight)
                      blocks ctx) = saved ctx.
Proof.
  induction blocks as [|b bs IH]; intros ctx; cbn [fold_left];
    [now split|].
  destruct (IH (drawBlock measureText canvasWidth canvasHeight ctx b))
    as [-> ->].
  apply drawBlock_keeps.
Qed.

(** What the fit draws on a fresh context: text calls only, white, from
    the top, of size 8 or more, unclipped or clipped to the box. *)
Lemma fitOps_styled text x y width height :
  1 <= width -> 1 <= height ->
  Forall (fun op => isFillText op = true /\ exportStyled op)
         (fitOps measureText text x y width height).
Proof.
  intros Hw Hh. unfold fitOps.
  assert (Hall : forall f c lh lines i,
             (8 <= f)%Z ->
             (c = [] \/ exists r, c = [r] /\ 1 <= rw r /\ 1 <= rh r) ->
             Forall (fun op => isFillText op = true /\ exportStyled op)
                    (lineOps measureText f "top" "white" c x y width lh
                             i lines)).
  { intros f c lh lines. induction lines as [|l ls IH]; intros i Hf Hc;
      cbn [lineOps]; constructor; [|now apply IH].
    split; [reflexivity|]. cbn [exportStyled]. now repeat split. }
  destruct (drawTextAndFit_spec measureText text x y width height
                                freshCanvas)
    as [(g & Hg & _ & _ & ->) | (_ & ->)];
    cbn [drawn fittedAt clippedAt8 freshCanvas clip app]; apply Hall;
    try lia.
  - now left.
  - right. exists (mkRect x y width height). now repeat split.
Qed.

Lemma not_degenerate (r : Rect) :
  degenerate r = false -> 1 <= rw r /\ 1 <= rh r.
Proof.
  intros H. split; apply Qnot_lt_le; intros Hlt;
    assert (Hd : degenerate r = true) by (apply degenerate_iff; tauto);
    congruence.
Qed.

Lemma blockOps_styled b :
  Forall exportStyled (blockOps measureText canvasWidth canvasHeight b).
Proof.
  unfold blockOps.
  destruct (degenerate (toPixels (Types.boundingBox b)
                                 canvasWidth canvasHeight)) eqn:E;
    [constructor|].
  destruct (not_degenerate _ E) as [Hw Hh].
  constructor; [cbn; now repeat split|].
  eapply Forall_impl; [|now apply fitOps_styled].
  now intros op [_ H].
Qed.



End ExportMore.

(** X16.  When every block is degenerate, and so when there is no block,
    the export paints the image and nothing else. *)
Theorem paintExport_only_image
        (measureText : Z -> string -> Q) (canvasWidth canvasHeight : Q)
        (blocks : list Types.TranslatedBlock) :
  Forall (fun b =>
            degenerate (toPixels (Types.boundingBox b)
                                 canvasWidth canvasHeight) = true)
         blocks ->
  paintExport measureText canvasWidth canvasHeight blocks =
  Ctx.drawImage freshCanvas 0 0.
Proof.
  intros H. unfold paintExport. generalize (Ctx.drawImage freshCanvas 0 0).
  induction H as [|b bs Hb _ IH]; intros ctx; cbn [fold_left];
    [reflexivity|].
  rewrite drawBlock_degenerate by assumption. apply IH.
Qed.

Lemma paintExport_only_image_witness :
  paintExport unitWidth 200 100
    [Types.mkTranslatedBlock "a" "b" (Types.mkBoundingBox 10 10 (1 # 4) 50);
     Types.mkTranslatedBlock "c" "d" (Types.mkBoundingBox 10 10 50 (1 # 2))]
  = Ctx.drawImage freshCanvas 0 0.
Proof.
  apply paintExport_only_image. repeat constructor.
Defined.

(** X17.  Everything an export draws has the look of the export: the
    image at the origin, unclipped backgrounds in #111827 at least one
    pixel wide and high, and white top-aligned text of size 8 or more that
    is unclipped or clipped to one rectangle at least one pixel wide and
    high. *)
Theorem paintExport_styled
        (measureText : Z -> string -> Q) (canvasWidth canvasHeight : Q)
        (blocks : list Types.TranslatedBlock) :
  Forall exportStyled
         (drawn (paintExport measureText canvasWidth canvasHeight blocks)).
Proof.
  unfold paintExport. rewrite fold_drawBlock by reflexivity.
  cbn [drawn Ctx.drawImage Ctx.emit freshCanvas app].
  constructor; [now split|].
  induction blocks as [|b bs IH]; cbn [flat_map]; [constructor|].
  apply Forall_app. split; [apply blockOps_styled | exact IH].
Qed.


(** X19.  After an export the context has no clipping region and no saved
    state left: every [save] of a fallback was matched by its [restore],
    however many blocks needed the fallback. *)
Theorem paintExport_balanced
        (measureText : Z -> string -> Q) (canvasWidth canvasHeight : Q)
        (blocks : list Types.TranslatedBlock) :
  clip (paintExport measureText canvasWidth canvasHeight blocks) = []
  /\ saved (paintExport measureText canvasWidth canvasHeight blocks) = [].
Proof.
  unfold paintExport.
  destruct (fold_drawBlock_keeps measureText canvasWidth canvasHeight blocks
                                 (Ctx.drawImage freshCanvas 0 0))
    as [-> ->].
  now split.
Qed.

(** ** More on the download name *)

Lemma substring_0_prefix (n : nat) : forall s,
  exists rest, s = (String.substring 0 n s ++ rest)%string.
Proof.
  induction n as [|n IH]; intros s.
  - exists s. now destruct s.
  - destruct s as [|c s]; [now exists ""|].
    destruct (IH s) as [rest Hrest].
    exists rest. cbn. now rewrite <- Hrest.
Qed.

(** X20.  For a file name with a dot, the download name is what stands
    before the last dot, followed by "-translated.png". *)
Theorem downloadName_strips_extension (stem ext : string) :
  ~ In "."%char (list_ascii_of_string ext) ->
  downloadName (stem ++ "." ++ ext) = (stem ++ "-translated.png")%string.
Proof. apply downloadName_with_extension. Qed.

Lemma downloadName_strips_extension_witness :
  downloadName "holiday.photo.jpeg" = "holiday.photo-translated.png".
Proof.
  apply (downloadName_strips_extension "holiday.photo" "jpeg").
  cbn. intuition discriminate.
Defined.

(** X21.  The download name is always a leading part of the file name
    followed by "-translated.png": no character is added or changed
    before the suffix. *)
Theorem downloadName_prefix (name : string) :
  exists stem rest,
    name = (stem ++ rest)%string
    /\ downloadName name = (stem ++ "-translated.png")%string.
Proof.
  unfold downloadName, JS.substring.
  set (len := Z.of_nat (String.length name)).
  set (k := Z.max 0 (Z.min (JS.lastIndexOf "." name) len)).
  replace (Z.max 0 (Z.min 0 len)) with 0%Z by lia.
  replace (Z.min 0 k) with 0%Z by lia.
  cbn [Z.to_nat].
  destruct (substring_0_prefix (Z.to_nat (Z.max 0 k - 0)) name)
    as [rest Hrest].
  eexists. exists rest. split; [exact Hrest | reflexivity].
Qed.

(** ** More on the response validation *)

(** With the two top-level fields in place, the outcome is decided by the
    blocks alone. *)
Lemma checkResponse_blocks v blocks formatted :
  Gemini.getProp "translationBlocks" v = Some (JArr blocks) ->
  Gemini.getProp "formattedTranslation" v = Some (JStr formatted) ->
  Gemini.checkResponse v =
  if forallb Gemini.validBlock blocks
  then Return (Gemini.mkTranslationResult
                 blocks (JS.unescapeNewlines formatted))
  else Throw Gemini.blocksError.
Proof.
  intros Hb Hf.
  assert (Hpb : Contract.present "translationBlocks" v)
    by (unfold Contract.present; congruence).
  assert (Hpf : Contract.present "formattedTranslation" v)
    by (unfold Contract.present; congruence).
  unfold Gemini.checkResponse.
  destruct (present_typeofObject _ _ Hpb) as [-> ->].
  apply hasProp_present in Hpb, Hpf.
  rewrite Hpb, Hpf, Hb, Hf. cbn.
  now destruct (forallb Gemini.validBlock blocks).
Qed.

Lemma checkResponse_no_shape v :
  ~ topLevelShape v -> Gemini.checkResponse v = Throw Gemini.structureError.
Proof.
  intros Hn. unfold Gemini.checkResponse.
  destruct (negb (Gemini.typeofObject v) || Gemini.isNull v
            || negb (Gemini.hasProp "translationBlocks" v)
            || negb (Gemini.isArray
                       (Gemini.getProp "translationBlocks" v))
            || negb (Gemini.hasProp "formattedTranslation" v)
            || negb (Gemini.isString
                       (Gemini.getProp "formattedTranslation" v)))%bool;
    [reflexivity|].
  destruct (Gemini.getProp "translationBlocks" v)
    as [[| | | |blocks|]|] eqn:Hb; try reflexivity.
  destruct (Gemini.getProp "formattedTranslation" v)
    as [[| | |formatted| |]|] eqn:Hf; try reflexivity.
  exfalso. apply Hn. now exists blocks, formatted.
Qed.

Lemma forallb_validBlock_false blocks :
  forallb Gemini.validBlock blocks = false
  <-> ~ Forall (Contract.blockWith Contract.boxPresent) blocks.
Proof.
  rewrite <- forallb_validBlock.
  destruct (forallb Gemini.validBlock blocks); split; congruence.
Qed.

(** The three ways the call can end. *)
Lemma translateImageContent_cases (v : json) :
  (~ topLevelShape v
   /\ Gemini.translateImageContent v
      = Throw (failedPrefix ++ Gemini.structureError)%string)
  \/ exists blocks formatted,
       Gemini.getProp "translationBlocks" v = Some (JArr blocks)
       /\ Gemini.getProp "formattedTranslation" v = Some (JStr formatted)
       /\ ((Forall (Contract.blockWith Contract.boxPresent) blocks
            /\ Gemini.translateImageContent v
               = Return (Gemini.mkTranslationResult
                           blocks (JS.unescapeNewlines formatted)))
           \/ (~ Forall (Contract.blockWith Contract.boxPresent) blocks
               /\ Gemini.translateImageContent v
                  = Throw (failedPrefix ++ Gemini.blocksError)%string)).
Proof.
  unfold Gemini.translateImageContent.
  destruct (Gemini.getProp "translationBlocks" v)
    as [[| | | |blocks|]|] eqn:Hb;
  destruct (Gemini.getProp "formattedTranslation" v)
    as [[| | |formatted| |]|] eqn:Hf;
  try solve
      [ left;
        assert (Hn : ~ topLevelShape v)
          by (intros (bs' & fs' & H1 & H2); congruence);
        split; [exact Hn|];
        now rewrite (checkResponse_no_shape v Hn) ].
  right. exists blocks, formatted.
  split; [reflexivity|]. split; [reflexivity|].
  rewrite (checkResponse_blocks v blocks formatted Hb Hf).
  destruct (forallb Gemini.validBlock blocks) eqn:E.
  - left. split; [now apply forallb_validBlock | reflexivity].
  - right. split; [now apply forallb_validBlock_false | reflexivity].
Qed.

Lemma error_messages_differ :
  (failedPrefix ++ Gemini.structureError)%string
  <> (failedPrefix ++ Gemini.blocksError)%string.
Proof. vm_compute. discriminate. Qed.

(** The validation throws nothing but its two messages. *)
Lemma checkResponse_message (v : json) (m : string) :
  Gemini.checkResponse v = Throw m ->
  m = Gemini.structureError \/ m = Gemini.blocksError.
Proof.
  intros H.
  destruct (Gemini.getProp "translationBlocks" v)
    as [[| | | |blocks|]|] eqn:Hb;
  destruct (Gemini.getProp "formattedTranslation" v)
    as [[| | |formatted| |]|] eqn:Hf;
  try (rewrite checkResponse_no_shape in H
         by (intros (bs' & fs' & H1 & H2); congruence);
       injection H as <-; now left).
  rewrite (checkResponse_blocks v blocks formatted Hb Hf) in H.
  destruct (forallb Gemini.validBlock blocks); [discriminate|].
  injection H as <-. now right.
Qed.

(** Once the text of the response has parsed, the whole call is the
    call on the parsed value. *)
Lemma translateImageContentCall_parsed
      (jsonParse : string -> outcome json) (trim : string -> string)
      (undefinedText text : string) (v : json) :
  jsonParse (trim text) = Return v ->
  translateImageContentCall jsonParse trim undefinedText
                            (Resolves (Some text))
  = Gemini.translateImageContent v.
Proof.
  intros Hp. unfold translateImageContentCall, Gemini.translateImageContent.
  rewrite Hp. now destruct (Gemini.checkResponse v).
Qed.

(** X22.  The messages of the call tell its failures apart.  When the
    text of the response parses, the call throws the structure message
    exactly when the parsed value is not an object with
    [translationBlocks] an array and [formattedTranslation] a string, and
    the blocks message exactly when these two are in place and some block
    lacks a field.  Every message the call throws is either the fixed
    message for a rejection that is no [Error], or the prefix of the
    [catch] clause followed by the message of the rejected request, of
    the missing text, of [JSON.parse], or one of the two messages of the
    validation. *)
Theorem translateImageContentCall_error_kind
        (jsonParse : string -> outcome json) (trim : string -> string)
        (undefinedText : string) (answer : Answer) :
  let call := translateImageContentCall jsonParse trim undefinedText in
  (forall text v,
      answer = Resolves (Some text) ->
      jsonParse (trim text) = Return v ->
      (call answer = Throw (failedPrefix ++ Gemini.structureError)%string
       <-> ~ topLevelShape v)
      /\ (call answer = Throw (failedPrefix ++ Gemini.blocksError)%string
          <-> exists blocks formatted,
                Gemini.getProp "translationBlocks" v = Some (JArr blocks)
                /\ Gemini.getProp "formattedTranslation" v
                   = Some (JStr formatted)
                /\ ~ Forall (Contract.blockWith Contract.boxPresent) blocks))
  /\ (forall message,
         call answer = Throw message ->
         (answer = Rejects ThrownOther /\ message = unknownError)
         \/ exists m,
              message = (failedPrefix ++ m)%string
              /\ (answer = Rejects (ThrownError m)
                  \/ (answer = Resolves None /\ m = undefinedText)
                  \/ exists text,
                       answer = Resolves (Some text)
                       /\ (jsonParse (trim text) = Throw m
                           \/ exists v,
                                jsonParse (trim text) = Return v
                                /\ (m = Gemini.structureError
                                    \/ m = Gemini.blocksError)))).
Proof.
  intros call. subst call. split.
  - intros text v -> Hp.
    rewrite (translateImageContentCall_parsed _ _ _ _ _ Hp).
    pose proof error_messages_differ as Hdiff.
    destruct (translateImageContent_cases v)
      as [[Hn ->] | (blocks & formatted & Hb & Hf & [[Hall ->] | [Hbad ->]])].
    + split; [tauto|].
      split; [intros H; exfalso; apply Hdiff; congruence|].
      intros (bs & fs & H1 & H2 & _). exfalso. apply Hn. now exists bs, fs.
    + split; [split; [discriminate|]|].
      * intros Hn. exfalso. apply Hn. now exists blocks, formatted.
      * split; [discriminate|].
        intros (bs & fs & H1 & _ & Hnot). congruence.
    + split; [split|].
      * intros H. exfalso. apply Hdiff. congruence.
      * intros Hn. exfalso. apply Hn. now exists blocks, formatted.
      * split; [|reflexivity].
        intros _. now exists blocks, formatted.
  - intros message H. unfold translateImageContentCall in H.
    destruct answer as [[m|] | [text|]].
    + injection H as <-. right. exists m. split; [reflexivity | now left].
    + injection H as <-. now left.
    + destruct (jsonParse (trim text)) as [v|m] eqn:Hp.
      * destruct (Gemini.checkResponse v) as [r|m] eqn:Hc; [discriminate|].
        injection H as <-. right. exists m. split; [reflexivity|].
        right. right. exists text. split; [reflexivity|].
        right. exists v. split; [exact Hp|].
        now apply (checkResponse_message v).
      * injection H as <-. right. exists m. split; [reflexivity|].
        right. right. exists text. split; [reflexivity | left; exact Hp].
    + injection H as <-. right. exists undefinedText.
      split; [reflexivity|]. right. left. now split.
Qed.

(** A response whose text parses to [null]: the structure message. *)
Lemma translateImageContentCall_error_kind_witness :
  translateImageContentCall (fun _ => Return JNull) (fun s => s) ""
                            (Resolves (Some "null"))
  = Throw (failedPrefix ++ Gemini.structureError)%string.
Proof.
  destruct (translateImageContentCall_error_kind
              (fun _ => Return JNull) (fun s => s) ""
              (Resolves (Some "null")))
    as [H _].
  destruct (H "null" JNull eq_refl eq_refl) as [[_ Hs] _].
  apply Hs. intros (bs & fs & Hb & _). discriminate.
Defined.

(** X23.  A response that is not an object (null, a boolean, a number, a
    string, an array), or that lacks [translationBlocks] or
    [formattedTranslation], is rejected with the structure message,
    whatever else it holds. *)
Theorem translateImageContent_rejects_non_object (v : json) :
  (forall props, v <> JObj props)
  \/ Gemini.getProp "translationBlocks" v = None
  \/ Gemini.getProp "formattedTranslation" v = None ->
  Gemini.translateImageContent v
  = Throw (failedPrefix ++ Gemini.structureError)%string.
Proof.
  intros H. unfold Gemini.translateImageContent.
  rewrite checkResponse_no_shape; [reflexivity|].
  intros (blocks & formatted & Hb & Hf).
  destruct H as [H | [H | H]]; try congruence.
  destruct v; try discriminate. now apply (H props).
Qed.

Lemma translateImageContent_rejects_non_object_witness :
  Gemini.translateImageContent
    (JArr [JObj [("translationBlocks", JArr []);
                 ("formattedTranslation", JStr "")]])
  = Throw (failedPrefix ++ Gemini.structureError)%string.
Proof.
  apply translateImageContent_rejects_non_object.
  left. discriminate.
Defined.

Lemma unescapeNewlines_pair c d s :
  JS.unescapeNewlines (String c (String d s)) =
  if (Ascii.eqb c "\" && Ascii.eqb d "n")%bool
  then String "010" (JS.unescapeNewlines s)
  else String c (JS.unescapeNewlines (String d s)).
Proof. reflexivity. Qed.

Lemma hasEscapedNewline_pair c d s :
  hasEscapedNewline (String c (String d s)) =
  ((Ascii.eqb c "\" && Ascii.eqb d "n") || hasEscapedNewline (String d s))%bool.
Proof. reflexivity. Qed.

Lemma unescapeNewlines_head d s :
  exists d' rest,
    JS.unescapeNewlines (String d s) = String d' rest
    /\ (d' = d \/ d' = "010"%char).
Proof.
  destruct s as [|e s]; cbn [JS.unescapeNewlines].
  - exists d, "". split; [reflexivity | now left].
  - destruct (Ascii.eqb d "\" && Ascii.eqb e "n")%bool; eexists; eexists;
      (split; [reflexivity|]); [now right | now left].
Qed.

Lemma unescapeNewlines_clean_upto (n : nat) : forall s,
  (String.length s <= n)%nat ->
  hasEscapedNewline (JS.unescapeNewlines s) = false.
Proof.
  induction n as [|n IH]; intros s Hlen.
  - destruct s; [reflexivity | simpl in Hlen; lia].
  - destruct s as [|c [|d s]]; try reflexivity.
    rewrite unescapeNewlines_pair.
    destruct (Ascii.eqb c "\" && Ascii.eqb d "n")%bool eqn:E.
    + assert (Hs : hasEscapedNewline (JS.unescapeNewlines s) = false)
        by (apply IH; simpl in Hlen; lia).
      cbn [hasEscapedNewline]. now destruct (JS.unescapeNewlines s).
    + assert (Hs : hasEscapedNewline (JS.unescapeNewlines (String d s))
                   = false)
        by (apply IH; simpl in Hlen |- *; lia).
      destruct (unescapeNewlines_head d s) as (d' & rest & Hr & Hd').
      rewrite Hr in *. rewrite hasEscapedNewline_pair, Hs, orb_false_r.
      destruct Hd' as [-> | ->]; [exact E|].
      now rewrite andb_false_r.
Qed.

Lemma unescapeNewlines_clean s :
  hasEscapedNewline (JS.unescapeNewlines s) = false.
Proof. now apply (unescapeNewlines_clean_upto (String.length s)). Qed.

Lemma unescapeNewlines_id s :
  hasEscapedNewline s = false -> JS.unescapeNewlines s = s.
Proof.
  induction s as [|c s IH]; intros H; [reflexivity|].
  destruct s as [|d s]; [reflexivity|].
  rewrite hasEscapedNewline_pair in H. apply orb_false_elim in H as [Hp Hs].
  rewrite unescapeNewlines_pair, Hp. now rewrite (IH Hs).
Qed.

(** X24.  The formatted text of every result the call returns holds no
    backslash directly followed by the letter n: the normalisation leaves
    no escaped line break behind, also where replacing one pair brings a
    backslash next to what follows. *)
Theorem translateImageContent_no_escaped_newline
        (v : json) (r : Gemini.TranslationResult) :
  Gemini.translateImageContent v = Return r ->
  hasEscapedNewline (Gemini.formattedTranslation r) = false.
Proof.
  intros H.
  destruct (translateImageContent_cases v)
    as [[_ E] | (blocks & formatted & _ & _ & [[_ E] | [_ E]])];
    rewrite E in H; try discriminate.
  injection H as <-. apply unescapeNewlines_clean.
Qed.

Lemma translateImageContent_no_escaped_newline_witness :
  hasEscapedNewline
    (Gemini.formattedTranslation
       (Gemini.mkTranslationResult
          [] (JS.unescapeNewlines "Name\n\\nAddress")))
  = false.
Proof.
  apply (translateImageContent_no_escaped_newline
           (JObj [("translationBlocks", JArr []);
                  ("formattedTranslation", JStr "Name\n\\nAddress")])).
  reflexivity.
Defined.

(** X25.  A formatted text without a backslash directly followed by n
    comes back unchanged, and normalising twice is the same as
    normalising once. *)
Theorem unescapeNewlines_stable (s : string) :
  (hasEscapedNewline s = false -> JS.unescapeNewlines s = s)
  /\ JS.unescapeNewlines (JS.unescapeNewlines s) = JS.unescapeNewlines s.
Proof.
  split; [apply unescapeNewlines_id|].
  apply unescapeNewlines_id, unescapeNewlines_clean.
Qed.

(** ** More on the handlers *)


Lemma prefix_iff (p s : string) :
  String.prefix p s = true <-> exists rest, s = (p ++ rest)%string.
Proof.
  revert s. induction p as [|a p IH]; intros s.
  - split; [intros _; now exists s | intros _; now destruct s].
  - destruct s as [|b s]; cbn [String.prefix append];
      [split; [discriminate | intros [? ?]; discriminate]|].
    destruct (ascii_dec a b) as [->|Hab].
    + rewrite IH. split; intros [rest H]; exists rest; congruence.
    + split; [discriminate | intros [rest H]; congruence].
Qed.

(** X27.  [handleFile] passes a file on, and shows its name, exactly when
    its declared type begins with "image/" or is "application/pdf" to the
    letter; any other file, and no file, changes nothing and raises the
    alert. *)
Theorem handleFile_accepts_iff (st : FileUpload.State) (f : App.File) :
  let accepted :=
    (exists rest, App.type f = ("image/" ++ rest)%string)
    \/ App.type f = "application/pdf" in
  (accepted ->
   FileUpload.handleFile st (Some f) =
   (FileUpload.mkState (FileUpload.isDragging st) (Some (App.name f)),
    FileUpload.mkEffects (Some f) None))
  /\ (~ accepted ->
      FileUpload.handleFile st (Some f) =
      (st, FileUpload.mkEffects None (Some FileUpload.invalidFile)))
  /\ FileUpload.handleFile st None =
     (st, FileUpload.mkEffects None (Some FileUpload.invalidFile)).
Proof.
  cbv zeta. unfold FileUpload.handleFile, FileUpload.startsWith.
  split; [|split; [|reflexivity]].
  - intros [H | H].
    + apply prefix_iff in H. now rewrite H.
    + apply String.eqb_eq in H. now rewrite H, orb_true_r.
  - intros Hn.
    destruct (String.prefix "image/" (App.type f)) eqn:Ep.
    + exfalso. apply Hn. left. now apply prefix_iff.
    + destruct (String.eqb_spec (App.type f) "application/pdf") as [E|E];
        [|reflexivity].
      exfalso. apply Hn. now right.
Qed.

Lemma handleFile_accepts_iff_witness :
  FileUpload.handleFile (FileUpload.mkState true None)
                        (Some (App.mkFile "notes.txt" "text/plain")) =
  (FileUpload.mkState true None,
   FileUpload.mkEffects None (Some FileUpload.invalidFile)).
Proof.
  refine (proj1 (proj2 (handleFile_accepts_iff
                          (FileUpload.mkState true None)
                          (App.mkFile "notes.txt" "text/plain"))) _).
  intros [[rest H] | H]; discriminate.
Defined.


